(** * Conversion engine of color_size_tool

    Shallow embedding of the name-to-ID conversion engine:
    - [ConversionService.convert_color] / [convert_size] (the Matcher),
    - [ConversionService._parse_composite_value] and [convert_composite],
    - [auto_convert_batch] of the conversion page (the Orchestrator),
    - [InsertService.insert_tm9030color] / [insert_tm9035size] and
      [batch_insert] (the Upsert Writer).

    Python [str] values are sequences of Unicode code points, modelled as
    [list Z].  Python floats used as confidences are modelled as exact
    rationals [Q].  Storage calls go through a small state/error monad over
    an explicit database state; whether a given storage call raises is
    decided by an oracle [fault] on the number of storage calls made so far. *)

From Stdlib Require Import ZArith QArith Qminmax List String Ascii Bool Lia Lqa.
Import ListNotations.

Open Scope string_scope.
Open Scope list_scope.
Open Scope Z_scope.

(** ** Strings *)

Definition ustr := list Z.

(** ASCII literal to code points. *)
Definition u (s : string) : ustr :=
  map (fun c => Z.of_nat (nat_of_ascii c)) (list_ascii_of_string s).

Definition ustr_eqb (a b : ustr) : bool :=
  if list_eq_dec Z.eq_dec a b then true else false.

(** [p] is a prefix of [s]. *)
Fixpoint prefixb (p s : ustr) : bool :=
  match p, s with
  | [], _ => true
  | _ :: _, [] => false
  | x :: p', y :: s' => Z.eqb x y && prefixb p' s'
  end.

(** Python's [p in s] on strings: substring test ([""] is in every string). *)
Fixpoint containsb (p s : ustr) : bool :=
  prefixb p s || match s with [] => false | _ :: s' => containsb p s' end.

(** Python's [str.isspace] on a single code point. *)
Definition is_py_space (c : Z) : bool :=
  ((9 <=? c) && (c <=? 13)) || ((28 <=? c) && (c <=? 32)) ||
  (c =? 133) || (c =? 160) || (c =? 5760) ||
  ((8192 <=? c) && (c <=? 8202)) || (c =? 8232) || (c =? 8233) ||
  (c =? 8239) || (c =? 8287) || (c =? 12288).

Fixpoint lstrip (s : ustr) : ustr :=
  match s with
  | [] => []
  | c :: s' => if is_py_space c then lstrip s' else s
  end.

(** Python's [str.strip()]. *)
Definition strip (s : ustr) : ustr := rev (lstrip (rev (lstrip s))).

(** Python's [s.split(sep, 1)] for a one-character separator: the part
    before the first occurrence and the rest, or [[s]] when absent. *)
Fixpoint split1 (sep : Z) (s : ustr) : list ustr :=
  match s with
  | [] => [[]]
  | c :: s' =>
      if Z.eqb c sep then [[]; s']
      else match split1 sep s' with
           | l :: rest => (c :: l) :: rest
           | [] => [[c]]
           end
  end.

(** Python's truthiness of an [Optional[str]]. *)
Definition str_truthy (s : option ustr) : bool :=
  match s with None => false | Some [] => false | Some _ => true end.

(** ** Confidences *)

(** Python's [max(a, b)]: keeps [a] unless [b > a]. *)
Definition py_max (a b : Q) : Q := if Qle_bool b a then a else b.

(** ** Conversion rules ([models/conversion.py: ConversionRule]) *)

Record ConversionRule := mkRule {
  rule_id : Z;
  source_name : ustr;
  target_id : Z;
  target_name : ustr;
  confidence : Q;
  is_active : bool;
  rule_created_at : Z;
  rule_updated_at : Z
}.

(** ** The Matcher ([convert_color] / [convert_size] after loading rules) *)

Section Matcher.

(** Python's [str.lower]; the development is generic in the case map. *)
Variable lower : ustr -> ustr.

(** First loop: exact case-insensitive match, stored confidence. *)
Fixpoint exact_match (name : ustr) (rules : list ConversionRule)
    : option (Z * ustr * Q) :=
  match rules with
  | [] => None
  | rule :: rest =>
      if ustr_eqb (lower (source_name rule)) (lower name)
      then Some (target_id rule, target_name rule, confidence rule)
      else exact_match name rest
  end.

(** Second loop: substring either way, confidence times 0.8. *)
Fixpoint partial_match (name : ustr) (rules : list ConversionRule)
    : option (Z * ustr * Q) :=
  match rules with
  | [] => None
  | rule :: rest =>
      if containsb (lower name) (lower (source_name rule)) ||
         containsb (lower (source_name rule)) (lower name)
      then Some (target_id rule, target_name rule, (confidence rule * (8 # 10))%Q)
      else partial_match name rest
  end.

(** Body of [convert_color] / [convert_size] on the loaded rules. *)
Definition resolve (name : option ustr) (rules : list ConversionRule)
    : option (Z * ustr * Q) :=
  match name with
  | None | Some [] => None
  | Some n =>
      match exact_match n rules with
      | Some r => Some r
      | None => partial_match n rules
      end
  end.

End Matcher.

(** ASCII case map, enough for the concrete inputs below (Python's
    [str.lower] agrees with it on ASCII and leaves kana unchanged). *)
Definition ascii_lower (s : ustr) : ustr :=
  map (fun c => if (65 <=? c) && (c <=? 90) then c + 32 else c) s.

(** ** The Composite Resolver's split ([_parse_composite_value]) *)

Definition separators : list Z := [47; 45; 95; 32].  (* '/', '-', '_', ' ' *)

Fixpoint parse_with (seps : list Z) (composite_value : ustr)
    : option ustr * option ustr :=
  match seps with
  | [] => (Some (strip composite_value), None)
  | sep :: rest =>
      if existsb (Z.eqb sep) composite_value then
        match split1 sep composite_value with
        | [p0; p1] => (Some (strip p0), Some (strip p1))
        | _ => parse_with rest composite_value
        end
      else parse_with rest composite_value
  end.

Definition _parse_composite_value (composite_value : ustr)
    : option ustr * option ustr :=
  parse_with separators composite_value.

(** "レッド" *)
Definition reddo : ustr := [12524; 12483; 12489].

(** Stable sort by [source_name] in code-point order, the model of
    [ORDER BY source_color_name] (SQLite's BINARY collation compares UTF-8
    bytes, which orders like code points).  Rows with equal names keep their
    table order. *)
Fixpoint ustr_ltb (a b : ustr) : bool :=
  match a, b with
  | [], [] => false
  | [], _ :: _ => true
  | _ :: _, [] => false
  | x :: a', y :: b' => (x <? y) || ((x =? y) && ustr_ltb a' b')
  end.

Fixpoint insert_by_name (r : ConversionRule) (l : list ConversionRule)
    : list ConversionRule :=
  match l with
  | [] => [r]
  | r' :: l' =>
      if ustr_ltb (source_name r) (source_name r') then r :: l
      else r' :: insert_by_name r l'
  end.

Definition order_by_source_name (l : list ConversionRule) : list ConversionRule :=
  fold_left (fun acc r => insert_by_name r acc) l [].

(** [SELECT ... WHERE is_active = 1 ORDER BY source_..._name] *)
Definition select_active_rules (tbl : list ConversionRule) : list ConversionRule :=
  order_by_source_name (filter is_active tbl).

(** ** Conversion history ([models/conversion.py: ConversionHistory]) *)

Record ConversionHistory := mkHist {
  hist_id : Z;
  h_product_id : ustr;
  h_original_value : ustr;
  h_converted_color_id : option Z;
  h_converted_size_id : option Z;
  h_conversion_type : ustr;
  h_status : ustr;
  h_confidence : Q;
  h_error_message : option ustr;
  h_created_at : Z
}.

(** ** Target tables [tm9030color] / [tm9035size]
    ([item_name] / [item_id] are [color_name] / [color_id] in tm9030color and
    [size_name] / [size_id] in tm9035size; [product_id] is UNIQUE). *)

Record TargetRow := mkTRow {
  trow_id : Z;
  t_product_id : ustr;
  t_product_name : ustr;
  t_item_name : ustr;
  t_item_id : Z;
  t_created_at : Z;
  t_updated_at : Z
}.

(** The table's rows in rowid order.  Rows are never deleted, so the next
    AUTOINCREMENT id is one more than the largest id present. *)
Definition Table := list TargetRow.

(** ** Database state *)

Record DB := mkDB {
  color_rules_tbl : list ConversionRule;
  size_rules_tbl : list ConversionRule;
  history_tbl : list ConversionHistory;
  tm9030color : Table;
  tm9035size : Table;
  ticks : nat
}.

Definition db_now (db : DB) : Z := Z.of_nat (ticks db).

Definition tick (db : DB) : DB :=
  mkDB (color_rules_tbl db) (size_rules_tbl db) (history_tbl db)
       (tm9030color db) (tm9035size db) (S (ticks db)).

(** ** Errors and the service monad *)

Inductive Exn := DatabaseError | ConversionError.

Inductive Res (A : Type) := Ok (a : A) | Err (e : Exn).
Arguments Ok {A} a.
Arguments Err {A} e.

Definition M (A : Type) := DB -> Res A * DB.

Definition ret {A} (a : A) : M A := fun db => (Ok a, db).

Definition bind {A B} (m : M A) (f : A -> M B) : M B :=
  fun db => match m db with
            | (Ok a, db') => f a db'
            | (Err e, db') => (Err e, db')
            end.

Notation "'do' x <- m ; k" := (bind m (fun x => k))
  (at level 60, x name, m at next level, right associativity).

(** [except Exception as e: raise Kind(...)] *)
Definition rethrow_as {A} (k : Exn) (m : M A) : M A :=
  fun db => match m db with
            | (Err _, db') => (Err k, db')
            | r => r
            end.

Section Service.

(** Whether the storage call made at a given tick raises. *)
Variable fault : nat -> bool.

Definition storage {A} (f : DB -> A * DB) : M A :=
  fun db => if fault (ticks db) then (Err DatabaseError, tick db)
            else let (a, db') := f (tick db) in (Ok a, db').

Definition get_color_rules : M (list ConversionRule) :=
  rethrow_as DatabaseError
    (storage (fun db => (select_active_rules (color_rules_tbl db), db))).

Definition get_size_rules : M (list ConversionRule) :=
  rethrow_as DatabaseError
    (storage (fun db => (select_active_rules (size_rules_tbl db), db))).

Variable lower : ustr -> ustr.

(** [convert_color]: empty guard, load active rules, match. *)
Definition convert_color (color_name : option ustr) : M (option (Z * ustr * Q)) :=
  rethrow_as ConversionError
    (if negb (str_truthy color_name) then ret None
     else do rules <- get_color_rules; ret (resolve lower color_name rules)).

Definition convert_size (size_name : option ustr) : M (option (Z * ustr * Q)) :=
  rethrow_as ConversionError
    (if negb (str_truthy size_name) then ret None
     else do rules <- get_size_rules; ret (resolve lower size_name rules)).

Definition fst3 (r : Z * ustr * Q) : Z := fst (fst r).
Definition conf3 (r : Z * ustr * Q) : Q := snd r.

(** [convert_composite] *)
Definition convert_composite (composite_value : option ustr)
    : M (option Z * option Z * Q) :=
  rethrow_as ConversionError
    (match composite_value with
     | None | Some [] => ret (None, None, 0%Q)
     | Some v =>
         let (color_name, size_name) := _parse_composite_value v in
         do color_result <- (if str_truthy color_name then convert_color color_name
                             else ret None);
         do size_result <- (if str_truthy size_name then convert_size size_name
                            else ret None);
         let color_id := option_map fst3 color_result in
         let size_id := option_map fst3 size_result in
         let confidence :=
           match color_result, size_result with
           | Some c, Some s => ((conf3 c + conf3 s) / 2)%Q
           | Some c, None => (conf3 c * (5 # 10))%Q
           | None, Some s => (conf3 s * (5 # 10))%Q
           | None, None => 0%Q
           end in
         ret (color_id, size_id, confidence)
     end).

End Service.

(** ** Rule administration ([add_color_rule] / [add_size_rule]) *)

Definition next_rule_id (tbl : list ConversionRule) : Z :=
  1 + fold_right Z.max 0 (map rule_id tbl).

Definition set_color_rules (db : DB) (tbl : list ConversionRule) : DB :=
  mkDB tbl (size_rules_tbl db) (history_tbl db) (tm9030color db) (tm9035size db)
       (ticks db).

Definition set_size_rules (db : DB) (tbl : list ConversionRule) : DB :=
  mkDB (color_rules_tbl db) tbl (history_tbl db) (tm9030color db) (tm9035size db)
       (ticks db).

Definition set_history (db : DB) (h : list ConversionHistory) : DB :=
  mkDB (color_rules_tbl db) (size_rules_tbl db) h (tm9030color db) (tm9035size db)
       (ticks db).

Section Admin.

Variable fault : nat -> bool.

(** [INSERT INTO color_conversion_rules ... VALUES (..., :confidence, 1, :now, :now)]
    followed by [SELECT last_insert_rowid()]; the confidence is stored as
    given. *)
Definition add_color_rule (source_name : ustr) (target_id : Z) (target_name : ustr)
    (confidence : Q) : M Z :=
  rethrow_as DatabaseError
    (do _ <- storage fault (fun db =>
          let tbl := color_rules_tbl db in
          let r := mkRule (next_rule_id tbl) source_name target_id target_name
                          confidence true (db_now db) (db_now db) in
          (tt, set_color_rules db (tbl ++ [r])));
     storage fault (fun db =>
          (fold_right Z.max 0 (map rule_id (color_rules_tbl db)), db))).

Definition add_size_rule (source_name : ustr) (target_id : Z) (target_name : ustr)
    (confidence : Q) : M Z :=
  rethrow_as DatabaseError
    (do _ <- storage fault (fun db =>
          let tbl := size_rules_tbl db in
          let r := mkRule (next_rule_id tbl) source_name target_id target_name
                          confidence true (db_now db) (db_now db) in
          (tt, set_size_rules db (tbl ++ [r])));
     storage fault (fun db =>
          (fold_right Z.max 0 (map rule_id (size_rules_tbl db)), db))).

(** [add_conversion_history]: the insert, then [SELECT last_insert_rowid()]. *)
Definition add_conversion_history (product_id original_value : ustr)
    (converted_color_id converted_size_id : option Z)
    (conversion_type status : ustr) (confidence : Q)
    (error_message : option ustr) : M Z :=
  rethrow_as DatabaseError
    (do _ <- storage fault (fun db =>
          let h := history_tbl db in
          let e := mkHist (1 + fold_right Z.max 0 (map hist_id h)) product_id
                          original_value converted_color_id converted_size_id
                          conversion_type status confidence error_message
                          (db_now db) in
          (tt, set_history db (h ++ [e])));
     storage fault (fun db =>
          (fold_right Z.max 0 (map hist_id (history_tbl db)), db))).

End Admin.

(** ** The Orchestrator ([pages/conversion_processing.py: auto_convert_batch]) *)

(** One row of the retrieved DataFrame. *)
Record Row := mkRow {
  df_product_id : ustr;
  df_color_name : option ustr;
  df_size_name : option ustr;
  df_composite_value : option ustr;
  df_color_id : option Z;
  df_size_id : option Z
}.

(** [models/conversion.py: ConversionResult] *)
Record ConversionResult := mkResult {
  product_id : ustr;
  original_color_name : option ustr;
  original_size_name : option ustr;
  original_composite_value : option ustr;
  converted_color_id : option Z;
  converted_color_name : option ustr;
  converted_size_id : option Z;
  converted_size_name : option ustr;
  res_confidence : Q;
  conversion_type : ustr;
  status : ustr;
  error_message : option ustr
}.

Definition s_success : ustr := u "success".
Definition s_failed : ustr := u "failed".
Definition s_pending : ustr := u "pending".
Definition s_auto : ustr := u "auto".

(** [ConversionResult(product_id=..., original_...=...)] with the defaults. *)
Definition new_result (row : Row) : ConversionResult :=
  mkResult (df_product_id row) (df_color_name row) (df_size_name row)
           (df_composite_value row) None None None None 0%Q s_auto s_pending None.

(** [if color_result: result.converted_color_id = ...; result.confidence = max(...)] *)
Definition apply_color (cr : option (Z * ustr * Q)) (r : ConversionResult)
    : ConversionResult :=
  match cr with
  | None => r
  | Some (cid, cname, c) =>
      mkResult (product_id r) (original_color_name r) (original_size_name r)
               (original_composite_value r) (Some cid) (Some cname)
               (converted_size_id r) (converted_size_name r)
               (py_max (res_confidence r) c) (conversion_type r) (status r)
               (error_message r)
  end.

Definition apply_size (sr : option (Z * ustr * Q)) (r : ConversionResult)
    : ConversionResult :=
  match sr with
  | None => r
  | Some (sid, sname, c) =>
      mkResult (product_id r) (original_color_name r) (original_size_name r)
               (original_composite_value r) (converted_color_id r)
               (converted_color_name r) (Some sid) (Some sname)
               (py_max (res_confidence r) c) (conversion_type r) (status r)
               (error_message r)
  end.

(** [f"{x:.2f}"] on the exact value: round half to even at two decimals. *)
Definition round_half_even_div (n d : Z) : Z :=
  let q := n / d in
  let r := n mod d in
  if 2 * r <? d then q
  else if d <? 2 * r then q + 1
  else if Z.even q then q else q + 1.

Fixpoint digits_fuel (fuel : nat) (n : Z) (acc : ustr) : ustr :=
  match fuel with
  | O => acc
  | S f =>
      let acc' := (48 + n mod 10) :: acc in
      if n <? 10 then acc' else digits_fuel f (n / 10) acc'
  end.

Definition digits (n : Z) : ustr := digits_fuel (S (Z.to_nat (Z.log2 (n + 1)))) n [].

Definition fmt2 (x : Q) : ustr :=
  let m := round_half_even_div (Z.abs (Qnum x) * 100) (Zpos (Qden x)) in
  (if Qnum x <? 0 then [45] else []) ++ digits (m / 100) ++ [46] ++
  [48 + (m mod 100) / 10; 48 + m mod 10].

(** "信頼度不足: " *)
Definition insufficient_prefix : ustr := [20449; 38972; 24230; 19981; 36275; 58; 32].

(** The threshold check. *)
Definition check_threshold (confidence_threshold : Q) (r : ConversionResult)
    : ConversionResult :=
  if Qle_bool confidence_threshold (res_confidence r) then
    mkResult (product_id r) (original_color_name r) (original_size_name r)
             (original_composite_value r) (converted_color_id r)
             (converted_color_name r) (converted_size_id r) (converted_size_name r)
             (res_confidence r) (conversion_type r) s_success (error_message r)
  else
    mkResult (product_id r) (original_color_name r) (original_size_name r)
             (original_composite_value r) (converted_color_id r)
             (converted_color_name r) (converted_size_id r) (converted_size_name r)
             (res_confidence r) (conversion_type r) s_failed
             (Some (insufficient_prefix ++ fmt2 (res_confidence r))).

(** [f"{x}"] of an [Optional[str]]. *)
Definition py_format_opt (s : option ustr) : ustr :=
  match s with Some v => v | None => u "None" end.

(** [result.original_composite_value or f"{color}/{size}"] *)
Definition original_value_of (r : ConversionResult) : ustr :=
  match original_composite_value r with
  | Some (_ :: _ as v) => v
  | _ => py_format_opt (original_color_name r) ++ [47] ++
         py_format_opt (original_size_name r)
  end.

(** [pd.isna] on an ID cell (missing IDs are [None]/[NaN]). *)
Definition isna (x : option Z) : bool := match x with None => true | Some _ => false end.

Section Batch.

Variable fault : nat -> bool.
Variable lower : ustr -> ustr.
Variables (convert_colors convert_sizes : bool) (confidence_threshold : Q).

(** The part of the loop body that builds the result, up to the threshold
    check (everything before [results.append(result)]). *)
Definition build_result (row : Row) : M ConversionResult :=
  let r0 := new_result row in
  do r1 <- (if convert_colors && isna (df_color_id row) then
              do color_result <- convert_color fault lower (df_color_name row);
              ret (apply_color color_result r0)
            else ret r0);
  do r2 <- (if convert_sizes && isna (df_size_id row) then
              do size_result <- convert_size fault lower (df_size_name row);
              ret (apply_size size_result r1)
            else ret r1);
  ret (check_threshold confidence_threshold r2).

(** [conversion_service.add_conversion_history(...)] for a result. *)
Definition record_history (r : ConversionResult) : M Z :=
  add_conversion_history fault (product_id r) (original_value_of r)
    (converted_color_id r) (converted_size_id r) s_auto (status r)
    (res_confidence r) (error_message r).

(** The [for] loop: [try: ...; results.append(result); record history
    except Exception: log; continue].  The list [results] is mutated before the
    history call, so a failure of that call keeps the result. *)
Fixpoint convert_loop (rows : list Row) (results : list ConversionResult) (db : DB)
    : list ConversionResult * DB :=
  match rows with
  | [] => (results, db)
  | row :: rest =>
      match build_result row db with
      | (Err _, db1) => convert_loop rest results db1
      | (Ok r, db1) =>
          let results' := results ++ [r] in
          convert_loop rest results' (snd (record_history r db1))
      end
  end.

(** [auto_convert_batch(df, convert_colors, convert_sizes, batch_size,
    confidence_threshold)]: [batch_size] is not used by the code. *)
Definition auto_convert_batch (rows : list Row) (db : DB)
    : list ConversionResult * DB :=
  convert_loop rows [] db.

End Batch.

(** ** The Upsert Writer ([services/insert_service.py]) *)

(** [models/product.py: Product] *)
Record Product := mkProduct {
  p_product_id : ustr;
  p_product_name : ustr;
  p_color_name : option ustr;
  p_size_name : option ustr;
  p_composite_value : option ustr;
  p_color_id : option Z;
  p_size_id : option Z
}.

(** One parameter tuple [(:product_id_i, :product_name_i, :x_name_i, :x_id_i,
    :created_at_i, :updated_at_i)] of the bulk statement. *)
Record ValueRow := mkVal {
  v_product_id : ustr;
  v_product_name : ustr;
  v_item_name : ustr;
  v_item_id : Z;
  v_created_at : Z;
  v_updated_at : Z
}.

(** [ON CONFLICT(product_id) DO UPDATE SET product_name = excluded.product_name,
    x_name = excluded.x_name, x_id = excluded.x_id,
    updated_at = excluded.updated_at] on the row holding the key. *)
Definition set_on_conflict (v : ValueRow) (r : TargetRow) : TargetRow :=
  if ustr_eqb (t_product_id r) (v_product_id v) then
    mkTRow (trow_id r) (t_product_id r) (v_product_name v) (v_item_name v)
           (v_item_id v) (t_created_at r) (v_updated_at v)
  else r.

Definition next_trow_id (t : Table) : Z := 1 + fold_right Z.max 0 (map trow_id t).

Definition has_key (t : Table) (k : ustr) : bool :=
  existsb (fun r => ustr_eqb (t_product_id r) k) t.

(** SQLite processes the VALUES rows in order: insert, or update on conflict. *)
Definition upsert_one (t : Table) (v : ValueRow) : Table :=
  if has_key t (v_product_id v) then map (set_on_conflict v) t
  else t ++ [mkTRow (next_trow_id t) (v_product_id v) (v_product_name v)
                    (v_item_name v) (v_item_id v) (v_created_at v) (v_updated_at v)].

Definition upsert_all (t : Table) (vs : list ValueRow) : Table := fold_left upsert_one vs t.

(** [product.color_name or ''] *)
Definition or_empty (s : option ustr) : ustr := match s with Some v => v | None => [] end.

Definition id_or_zero (x : option Z) : Z := match x with Some v => v | None => 0 end.

(** [_build_tm9030color_insert_query]; [now i] gives the two [datetime.now()]
    values of tuple [i].  The products have been filtered on [color_id], so
    [id_or_zero] never meets [None]. *)
Fixpoint build_color_values (now : nat -> Z * Z) (i : nat) (ps : list Product)
    : list ValueRow :=
  match ps with
  | [] => []
  | p :: ps' =>
      mkVal (p_product_id p) (p_product_name p) (or_empty (p_color_name p))
            (id_or_zero (p_color_id p)) (fst (now i)) (snd (now i))
        :: build_color_values now (S i) ps'
  end.

Fixpoint build_size_values (now : nat -> Z * Z) (i : nat) (ps : list Product)
    : list ValueRow :=
  match ps with
  | [] => []
  | p :: ps' =>
      mkVal (p_product_id p) (p_product_name p) (or_empty (p_size_name p))
            (id_or_zero (p_size_id p)) (fst (now i)) (snd (now i))
        :: build_size_values now (S i) ps'
  end.

Definition color_products (ps : list Product) : list Product :=
  filter (fun p => negb (isna (p_color_id p))) ps.

Definition size_products (ps : list Product) : list Product :=
  filter (fun p => negb (isna (p_size_id p))) ps.

(** The table after one bulk color write (the statement runs in one
    transaction: it is applied whole or rolled back). *)
Definition write_colors (now : nat -> Z * Z) (ps : list Product) (t : Table) : Table :=
  match color_products ps with
  | [] => t
  | cps => upsert_all t (build_color_values now 0 cps)
  end.

Definition write_sizes (now : nat -> Z * Z) (ps : list Product) (t : Table) : Table :=
  match size_products ps with
  | [] => t
  | sps => upsert_all t (build_size_values now 0 sps)
  end.

Record InsertResult := mkIns {
  ins_success : bool;
  inserted_count : Z;
  skipped_count : Z
}.

Definition set_tm9030color (db : DB) (t : Table) : DB :=
  mkDB (color_rules_tbl db) (size_rules_tbl db) (history_tbl db) t (tm9035size db)
       (ticks db).

Definition set_tm9035size (db : DB) (t : Table) : DB :=
  mkDB (color_rules_tbl db) (size_rules_tbl db) (history_tbl db) (tm9030color db) t
       (ticks db).

Definition call_now (db : DB) : nat -> Z * Z := fun _ => (db_now db, db_now db).

Section Writers.

Variable fault : nat -> bool.

(** [insert_tm9030color]; [rowcount] of an SQLite upsert counts every
    inserted or updated row. *)
Definition insert_tm9030color (ps : list Product) : M InsertResult :=
  rethrow_as DatabaseError
    (match color_products ps with
     | [] => ret (mkIns true 0 (Z.of_nat (List.length ps)))
     | cps =>
         storage fault (fun db =>
           (mkIns true (Z.of_nat (List.length cps)) (Z.of_nat (List.length ps) - Z.of_nat (List.length cps)),
            set_tm9030color db (write_colors (call_now db) ps (tm9030color db))))
     end).

Definition insert_tm9035size (ps : list Product) : M InsertResult :=
  rethrow_as DatabaseError
    (match size_products ps with
     | [] => ret (mkIns true 0 (Z.of_nat (List.length ps)))
     | sps =>
         storage fault (fun db =>
           (mkIns true (Z.of_nat (List.length sps)) (Z.of_nat (List.length ps) - Z.of_nat (List.length sps)),
            set_tm9035size db (write_sizes (call_now db) ps (tm9035size db))))
     end).

Record BatchResult := mkBatch {
  b_success : bool;
  total_products : Z;
  color_result : option InsertResult;
  size_result : option InsertResult;
  started_at : Z;
  completed_at : option Z;
  errors : list ustr
}.

(** [str(e)]; the wording of the exception text is not modelled. *)
Definition str_exn (e : Exn) : ustr :=
  match e with DatabaseError => u "DatabaseError" | ConversionError => u "ConversionError" end.

(** "カラーデータ登録エラー: " and "サイズデータ登録エラー: " *)
Definition color_error_prefix : ustr :=
  [12459; 12521; 12540; 12487; 12540; 12479; 30331; 37682; 12456; 12521; 12540; 58; 32].
Definition size_error_prefix : ustr :=
  [12469; 12452; 12474; 12487; 12540; 12479; 30331; 37682; 12456; 12521; 12540; 58; 32].

(** One guarded [try: batch_result[key] = writer(...) except: errors.append]. *)
Definition run_writer (enabled : bool) (writer : M InsertResult) (prefix : ustr)
    (db : DB) : option InsertResult * list ustr * DB :=
  if enabled then
    match writer db with
    | (Ok r, db') => (Some r, [], db')
    | (Err e, db') => (None, [prefix ++ str_exn e], db')
    end
  else (None, [], db).

(** [batch_insert(products, db_type, insert_colors, insert_sizes)] *)
Definition batch_insert (ps : list Product) (insert_colors insert_sizes : bool)
    (db : DB) : BatchResult * DB :=
  let started := db_now db in
  let '(cres, cerr, db1) :=
    run_writer insert_colors (insert_tm9030color ps) color_error_prefix db in
  let '(sres, serr, db2) :=
    run_writer insert_sizes (insert_tm9035size ps) size_error_prefix db1 in
  let errs := cerr ++ serr in
  (mkBatch (match errs with [] => true | _ => false end) (Z.of_nat (List.length ps))
           cres sres started (Some (db_now db2)) errs, db2).

End Writers.

(** ** Rule maintenance ([update_rule], [delete_rule], [initialize_sample_rules]) *)

Inductive RuleTable := ColorRules | SizeRules.

Definition get_rules (db : DB) (t : RuleTable) : list ConversionRule :=
  match t with ColorRules => color_rules_tbl db | SizeRules => size_rules_tbl db end.

Definition set_rules (db : DB) (t : RuleTable) (tbl : list ConversionRule) : DB :=
  match t with
  | ColorRules => set_color_rules db tbl
  | SizeRules => set_size_rules db tbl
  end.

(** A character of an unquoted SQL identifier. *)
Definition is_ident_char (c : Z) : bool :=
  ((65 <=? c) && (c <=? 90)) || ((97 <=? c) && (c <=? 122)) ||
  ((48 <=? c) && (c <=? 57)) || (c =? 95).

(** [f"{rule_type}_conversion_rules"] *)
Definition rule_tbl_name (rule_type : ustr) : ustr := rule_type ++ u "_conversion_rules".

(** The table that [rule_tbl_name rule_type] names, for a [rule_type] made of
    identifier characters: SQLite matches table names ASCII
    case-insensitively, and only the two rule tables of [create_tables] end
    in [_conversion_rules]. *)
Definition rule_table_of (rule_type : ustr) : option RuleTable :=
  if ustr_eqb (ascii_lower rule_type) (u "color") then Some ColorRules
  else if ustr_eqb (ascii_lower rule_type) (u "size") then Some SizeRules
  else None.

(** A raised exception, before any storage call. *)
Definition raise_ {A} (e : Exn) : M A := fun db => (Err e, db).

(** A storage call whose statement SQLite rejects (no such table or column). *)
Definition sql_error {A} : M A := fun db => (Err DatabaseError, tick db).

(** [SET is_active = 0, updated_at = :now WHERE id = :rule_id] on one row. *)
Definition deactivate (rule_id' now : Z) (r : ConversionRule) : ConversionRule :=
  if Z.eqb (rule_id r) rule_id' then
    mkRule (rule_id r) (source_name r) (target_id r) (target_name r) (confidence r)
           false (rule_created_at r) now
  else r.

(** The keyword arguments of [update_rule]: the four names it accepts, with
    their values, and any other keyword ([KwOther key], ignored). *)
Inductive Kwarg :=
| KwTargetId (v : Z)
| KwTargetName (v : ustr)
| KwConfidence (v : Q)
| KwIsActive (v : bool)
| KwOther (key : ustr).

Definition kw_key (k : Kwarg) : ustr :=
  match k with
  | KwTargetId _ => u "target_id"
  | KwTargetName _ => u "target_name"
  | KwConfidence _ => u "confidence"
  | KwIsActive _ => u "is_active"
  | KwOther key => key
  end.

(** [key in ['target_id', 'target_name', 'confidence', 'is_active']] *)
Definition kw_allowed (k : Kwarg) : bool :=
  match k with KwOther _ => false | _ => true end.

(** Whether the rule tables have a column named [key]: they have
    [confidence] and [is_active], but call the target columns
    [target_color_id] / [target_size_id] and [target_color_name] /
    [target_size_name]. *)
Definition kw_column_exists (k : Kwarg) : bool :=
  match k with KwConfidence _ | KwIsActive _ => true | _ => false end.

(** One [key = :key] assignment on a row. *)
Definition apply_kwarg (r : ConversionRule) (k : Kwarg) : ConversionRule :=
  match k with
  | KwConfidence c =>
      mkRule (rule_id r) (source_name r) (target_id r) (target_name r) c
             (is_active r) (rule_created_at r) (rule_updated_at r)
  | KwIsActive b =>
      mkRule (rule_id r) (source_name r) (target_id r) (target_name r)
             (confidence r) b (rule_created_at r) (rule_updated_at r)
  | _ => r
  end.

(** [UPDATE ... SET <fields>, updated_at = :now WHERE id = :rule_id] on one row. *)
Definition update_row (rule_id' now : Z) (fields : list Kwarg) (r : ConversionRule)
    : ConversionRule :=
  if Z.eqb (rule_id r) rule_id' then
    let r' := fold_left apply_kwarg fields r in
    mkRule (rule_id r') (source_name r') (target_id r') (target_name r')
           (confidence r') (is_active r') (rule_created_at r') now
  else r.

(** [sep.join(l)] *)
Fixpoint join (sep : ustr) (l : list ustr) : ustr :=
  match l with
  | [] => []
  | [x] => x
  | x :: l' => x ++ sep ++ join sep l'
  end.

(** "更新するフィールドが指定されていません" *)
Definition no_fields_msg : ustr :=
  [26356; 26032; 12377; 12427; 12501; 12451; 12540; 12523; 12489; 12364; 25351;
   23450; 12373; 12428; 12390; 12356; 12414; 12379; 12435].

(** [(source_name, target_id, target_name, confidence)] of a rule. *)
Definition rule_key (r : ConversionRule) : ustr * Z * ustr * Q :=
  (source_name r, target_id r, target_name r, confidence r).

Definition color_samples : list (ustr * Z * ustr * Q) :=
  [(reddo, 1, u "Red", 1%Q);
   ([12502; 12523; 12540], 2, u "Blue", 1%Q);
   ([12464; 12522; 12540; 12531], 3, u "Green", 1%Q);
   ([12452; 12456; 12525; 12540], 4, u "Yellow", 1%Q);
   ([12502; 12521; 12483; 12463], 5, u "Black", 1%Q);
   ([12507; 12527; 12452; 12488], 6, u "White", 1%Q);
   ([12500; 12531; 12463], 7, u "Pink", 1%Q);
   ([12458; 12524; 12531; 12472], 8, u "Orange", 1%Q)].

Definition size_samples : list (ustr * Z * ustr * Q) :=
  [(u "S", 1, u "Small", 1%Q);
   (u "M", 2, u "Medium", 1%Q);
   (u "L", 3, u "Large", 1%Q);
   (u "XL", 4, u "Extra Large", 1%Q);
   (u "XXL", 5, u "Double Extra Large", 1%Q);
   (u "XS", 6, u "Extra Small", 1%Q)].

(** [try: m except Exception as e: app_logger.warning(...)] *)
Definition try_skip {A} (m : M A) : M unit :=
  fun db => let (_, db') := m db in (Ok tt, db').

(** The [for] loop of [initialize_sample_rules] over one sample list. *)
Fixpoint add_samples (add : ustr -> Z -> ustr -> Q -> M Z)
    (l : list (ustr * Z * ustr * Q)) : M unit :=
  match l with
  | [] => ret tt
  | (s, i, n, c) :: l' => do _ <- try_skip (add s i n c); add_samples add l'
  end.

Section RuleAdmin.

Variable fault : nat -> bool.

(** The effect of an UPDATE statement whose spliced table name is not a
    plain identifier: its text is SQL beyond the two rule tables, left
    abstract. *)
Variable exec_raw : ustr -> M unit.

(** [delete_rule(rule_id, rule_type)]: logical delete. *)
Definition delete_rule (rule_id' : Z) (rule_type : ustr) : M unit :=
  rethrow_as DatabaseError
    (if forallb is_ident_char rule_type then
       match rule_table_of rule_type with
       | Some t =>
           storage fault (fun db =>
             (tt, set_rules db t (map (deactivate rule_id' (db_now db)) (get_rules db t))))
       | None => sql_error
       end
     else exec_raw (u "UPDATE " ++ rule_tbl_name rule_type ++
                    u " SET is_active = 0, updated_at = :now WHERE id = :rule_id")).

(** [update_rule(rule_id, rule_type, **kwargs)].  The [ValidationError]
    raised when no accepted keyword is given is caught by the method's own
    [except Exception] and re-raised as [DatabaseError]. *)
Definition update_rule (rule_id' : Z) (rule_type : ustr) (kwargs : list Kwarg) : M unit :=
  rethrow_as DatabaseError
    (let fields := filter kw_allowed kwargs in
     match fields with
     | [] => raise_ DatabaseError
     | _ :: _ =>
         if forallb is_ident_char rule_type then
           match rule_table_of rule_type with
           | Some t =>
               if forallb kw_column_exists fields then
                 storage fault (fun db =>
                   (tt, set_rules db t
                          (map (update_row rule_id' (db_now db) fields) (get_rules db t))))
               else sql_error
           | None => sql_error
           end
         else exec_raw (u "UPDATE " ++ rule_tbl_name rule_type ++ u " SET " ++
                        join (u ", ") (map (fun k => kw_key k ++ u " = :" ++ kw_key k) fields
                                       ++ [u "updated_at = :now"]) ++
                        u " WHERE id = :rule_id")
     end).

(** [initialize_sample_rules()] *)
Definition initialize_sample_rules : M unit :=
  rethrow_as DatabaseError
    (do _ <- add_samples (add_color_rule fault) color_samples;
     add_samples (add_size_rule fault) size_samples).

End RuleAdmin.

(** Ordered sublists. *)
Inductive subseq {A : Type} : list A -> list A -> Prop :=
| subseq_nil : subseq [] []
| subseq_skip x l1 l2 : subseq l1 l2 -> subseq l1 (x :: l2)
| subseq_take x l1 l2 : subseq l1 l2 -> subseq (x :: l1) (x :: l2).

Definition other_table (t : RuleTable) : RuleTable :=
  match t with ColorRules => SizeRules | SizeRules => ColorRules end.

(** Every table but rule table [t] is the same in [db] and [db']. *)
Definition same_except (t : RuleTable) (db db' : DB) : Prop :=
  get_rules db' (other_table t) = get_rules db (other_table t) /\
  history_tbl db' = history_tbl db /\
  tm9030color db' = tm9030color db /\
  tm9035size db' = tm9035size db.

(** The value a list of keyword assignments leaves in [confidence] /
    [is_active]: the last one given, else the old one. *)
Definition last_confidence (fields : list Kwarg) (c0 : Q) : Q :=
  fold_left (fun c k => match k with KwConfidence c' => c' | _ => c end) fields c0.

Definition last_active (fields : list Kwarg) (b0 : bool) : bool :=
  fold_left (fun b k => match k with KwIsActive b' => b' | _ => b end) fields b0.

(** What one call of a rule-adding method does to rule table [t]. *)
Definition adds_at_most_one (fault : nat -> bool) (t : RuleTable)
    (add : ustr -> Z -> ustr -> Q -> M Z) : Prop :=
  forall s i n c db,
    exists added,
      get_rules (snd (add s i n c db)) t = get_rules db t ++ added /\
      same_except t db (snd (add s i n c db)) /\
      subseq (map rule_key added) [(s, i, n, c)] /\
      Forall (fun r => is_active r = true) added /\
      (fault (ticks db) = false -> map rule_key added = [(s, i, n, c)]).

(** ** Pre-insert summary ([get_insert_summary]) *)

Definition zlen {A} (l : list A) : Z := Z.of_nat (List.length l).

Record InsertSummary := mkSummary {
  sum_total_products : Z;
  sum_color_ready : Z;
  sum_size_ready : Z;
  sum_color_percentage : Q;
  sum_size_percentage : Q;
  sum_ready_for_insert : Z;
  sum_needs_attention : Z
}.

(** [(len(xs) / len(products) * 100) if products else 0] *)
Definition percentage (k : Z) (ps : list Product) : Q :=
  match ps with [] => 0%Q | _ :: _ => (inject_Z k / inject_Z (zlen ps) * 100)%Q end.

(** [get_insert_summary(products)]; its body cannot raise. *)
Definition get_insert_summary (ps : list Product) : InsertSummary :=
  let cps := color_products ps in
  let sps := size_products ps in
  mkSummary (zlen ps) (zlen cps) (zlen sps)
    (percentage (zlen cps) ps) (percentage (zlen sps) ps)
    (zlen (filter (fun p => negb (isna (p_color_id p)) && negb (isna (p_size_id p))) ps))
    (zlen (filter (fun p => isna (p_color_id p) || isna (p_size_id p)) ps)).

(** [not s] for a Python string. *)
Definition is_blank (s : ustr) : bool := match s with [] => true | _ :: _ => false end.

(** ** Python values and dicts ([models/conversion.py], [utils/validators.py]) *)

(** A Python [float]: finite, NaN, or an infinity ([true]: negative). *)
Inductive PyFloat := PFin (q : Q) | PNaN | PInf (neg : bool).

(** The Python values these methods meet in a dict. *)
Inductive PyVal :=
| VNone
| VBool (b : bool)
| VInt (z : Z)
| VFloat (f : PyFloat)
| VStr (s : ustr).

(** A dict, in insertion order, with distinct keys as Python has them. *)
Definition PyDict := list (ustr * PyVal).

Fixpoint dict_get (d : PyDict) (k : ustr) : option PyVal :=
  match d with
  | [] => None
  | (k', v) :: d' => if ustr_eqb k' k then Some v else dict_get d' k
  end.

(** [d.get(k, default)]; [d.get(k)] is [get_or d k VNone]. *)
Definition get_or (d : PyDict) (k : ustr) (default : PyVal) : PyVal :=
  match dict_get d k with Some v => v | None => default end.

(** [bool(v)] *)
Definition py_truthy (v : PyVal) : bool :=
  match v with
  | VNone => false
  | VBool b => b
  | VInt z => negb (z =? 0)
  | VFloat (PFin q) => negb (Qeq_bool q 0)
  | VFloat _ => true
  | VStr s => negb (is_blank s)
  end.

(** ** The data check before an insert ([validate_insert_data]) *)

(** A [Product] as [validate_insert_data] meets it: the dataclass does not
    enforce its annotations, so the name and the ids hold whatever Python
    value the caller put there (a DataFrame record gives a float [NaN] for
    a missing id, or a float for an id in a column that has one). *)
Record ProductV := mkProductV {
  pv_product_id : ustr;
  pv_product_name : PyVal;
  pv_color_id : PyVal;
  pv_size_id : PyVal
}.

Record InsertValidation := mkValidation {
  iv_is_valid : bool;
  iv_total_count : Z;
  iv_valid_count : Z;
  iv_invalid_count : Z;
  iv_errors : list ustr;
  iv_warnings : list ustr
}.

(** "商品IDが未設定", "商品名が未設定", "カラーIDが未変換", "サイズIDが未変換",
    "カラーIDの型が無効", "サイズIDの型が無効" *)
Definition msg_no_product_id : ustr := [21830; 21697; 73; 68; 12364; 26410; 35373; 23450].
Definition msg_no_product_name : ustr := [21830; 21697; 21517; 12364; 26410; 35373; 23450].
Definition msg_no_color_id : ustr :=
  [12459; 12521; 12540; 73; 68; 12364; 26410; 22793; 25563].
Definition msg_no_size_id : ustr :=
  [12469; 12452; 12474; 73; 68; 12364; 26410; 22793; 25563].
Definition msg_bad_color_type : ustr :=
  [12459; 12521; 12540; 73; 68; 12398; 22411; 12364; 28961; 21177].
Definition msg_bad_size_type : ustr :=
  [12469; 12452; 12474; 73; 68; 12398; 22411; 12364; 28961; 21177].

(** [v is None] *)
Definition py_is_none (v : PyVal) : bool := match v with VNone => true | _ => false end.

(** [isinstance(v, int)]: [bool] is a subclass of [int]. *)
Definition py_is_int (v : PyVal) : bool :=
  match v with VInt _ | VBool _ => true | _ => false end.

(** [v is not None and not isinstance(v, int)] *)
Definition bad_id_type (v : PyVal) : bool := negb (py_is_none v) && negb (py_is_int v).

(** The errors of one product, in the order of the checks. *)
Definition product_errors (p : ProductV) : list ustr :=
  (if is_blank (pv_product_id p) then [msg_no_product_id] else []) ++
  (if py_truthy (pv_product_name p) then [] else [msg_no_product_name]) ++
  (if bad_id_type (pv_color_id p) then [msg_bad_color_type] else []) ++
  (if bad_id_type (pv_size_id p) then [msg_bad_size_type] else []).

Definition product_warnings (p : ProductV) : list ustr :=
  (if py_is_none (pv_color_id p) then [msg_no_color_id] else []) ++
  (if py_is_none (pv_size_id p) then [msg_no_size_id] else []).

(** [f"{product.product_id}: {m}"] for each message. *)
Definition with_pid (p : ProductV) (msgs : list ustr) : list ustr :=
  map (fun m => pv_product_id p ++ [58; 32] ++ m) msgs.

(** One turn of the loop of [validate_insert_data]. *)
Definition validate_step (acc : InsertValidation) (p : ProductV) : InsertValidation :=
  let errs := product_errors p in
  let warns := product_warnings p in
  mkValidation (iv_is_valid acc) (iv_total_count acc)
    (match errs with [] => iv_valid_count acc + 1 | _ :: _ => iv_valid_count acc end)
    (match errs with [] => iv_invalid_count acc | _ :: _ => iv_invalid_count acc + 1 end)
    (iv_errors acc ++ with_pid p errs)
    (iv_warnings acc ++ with_pid p warns).

(** [validate_insert_data(products)]; its body cannot raise. *)
Definition validate_insert_data (ps : list ProductV) : InsertValidation :=
  let r := fold_left validate_step ps (mkValidation true (zlen ps) 0 0 [] []) in
  if 0 <? iv_invalid_count r then
    mkValidation false (iv_total_count r) (iv_valid_count r) (iv_invalid_count r)
                 (iv_errors r) (iv_warnings r)
  else r.

(** A product that none of the checks of [validate_insert_data] flags. *)
Definition product_ok (p : ProductV) : bool :=
  negb (is_blank (pv_product_id p)) && py_truthy (pv_product_name p) &&
  negb (bad_id_type (pv_color_id p)) && negb (bad_id_type (pv_size_id p)).

(** [k not in d or not d[k]] *)
Definition missing_or_falsy (d : PyDict) (k : ustr) : bool :=
  match dict_get d k with None => true | Some v => negb (py_truthy v) end.

Definition obind {A B} (m : option A) (f : A -> option B) : option B :=
  match m with Some a => f a | None => None end.

Notation "'let?' x ':=' m 'in' k" := (obind m (fun x => k))
  (at level 200, x name, m at level 100, k at level 200).

(** Reading a field of a dataclass back from a dict value.  Python's
    [from_dict] stores whatever value it finds; a value of a type the field
    does not declare gives an object outside the model, reported as [None]. *)
Definition as_str (v : PyVal) : option ustr :=
  match v with VStr s => Some s | _ => None end.

Definition as_opt_str (v : PyVal) : option (option ustr) :=
  match v with VNone => Some None | VStr s => Some (Some s) | _ => None end.

Definition as_int (v : PyVal) : option Z :=
  match v with VInt z => Some z | _ => None end.

Definition as_opt_int (v : PyVal) : option (option Z) :=
  match v with VNone => Some None | VInt z => Some (Some z) | _ => None end.

(** A finite float field ([int] values compare and compute as the same
    number). *)
Definition as_float (v : PyVal) : option Q :=
  match v with VFloat (PFin q) => Some q | VInt z => Some (inject_Z z) | _ => None end.

Definition as_bool (v : PyVal) : option bool :=
  match v with VBool b => Some b | _ => None end.

Definition of_opt_str (s : option ustr) : PyVal :=
  match s with Some v => VStr v | None => VNone end.

Definition of_opt_int (z : option Z) : PyVal :=
  match z with Some v => VInt v | None => VNone end.

(** [ConversionResult.to_dict] *)
Definition result_to_dict (r : ConversionResult) : PyDict :=
  [(u "product_id", VStr (product_id r));
   (u "original_color_name", of_opt_str (original_color_name r));
   (u "original_size_name", of_opt_str (original_size_name r));
   (u "original_composite_value", of_opt_str (original_composite_value r));
   (u "converted_color_id", of_opt_int (converted_color_id r));
   (u "converted_color_name", of_opt_str (converted_color_name r));
   (u "converted_size_id", of_opt_int (converted_size_id r));
   (u "converted_size_name", of_opt_str (converted_size_name r));
   (u "confidence", VFloat (PFin (res_confidence r)));
   (u "conversion_type", VStr (conversion_type r));
   (u "status", VStr (status r));
   (u "error_message", of_opt_str (error_message r))].

(** [ConversionResult.from_dict] *)
Definition result_from_dict (d : PyDict) : option ConversionResult :=
  let? pid := as_str (get_or d (u "product_id") (VStr [])) in
  let? ocn := as_opt_str (get_or d (u "original_color_name") VNone) in
  let? osn := as_opt_str (get_or d (u "original_size_name") VNone) in
  let? ocv := as_opt_str (get_or d (u "original_composite_value") VNone) in
  let? cci := as_opt_int (get_or d (u "converted_color_id") VNone) in
  let? ccn := as_opt_str (get_or d (u "converted_color_name") VNone) in
  let? csi := as_opt_int (get_or d (u "converted_size_id") VNone) in
  let? csn := as_opt_str (get_or d (u "converted_size_name") VNone) in
  let? c := as_float (get_or d (u "confidence") (VFloat (PFin 0))) in
  let? ct := as_str (get_or d (u "conversion_type") (VStr s_auto)) in
  let? st := as_str (get_or d (u "status") (VStr s_pending)) in
  let? em := as_opt_str (get_or d (u "error_message") VNone) in
  Some (mkResult pid ocn osn ocv cci ccn csi csn c ct st em).

(** The [ConversionRule] dataclass: [id] may be [None]; [__post_init__]
    has set both timestamps. *)
Record RuleObj := mkRuleObj {
  ro_id : option Z;
  ro_source_name : ustr;
  ro_target_id : Z;
  ro_target_name : ustr;
  ro_confidence : Q;
  ro_is_active : bool;
  ro_created_at : Z;
  ro_updated_at : Z
}.

(** The [ConversionBatch] dataclass. *)
Record ConvBatch := mkConvBatch {
  cb_id : option Z;
  cb_batch_name : ustr;
  cb_total_records : Z;
  cb_processed_records : Z;
  cb_successful_records : Z;
  cb_failed_records : Z;
  cb_status : ustr;
  cb_started_at : option Z;
  cb_completed_at : option Z;
  cb_created_at : Z;
  cb_updated_at : Z
}.

(** The [ConversionHistory] dataclass. *)
Record HistoryObj := mkHistoryObj {
  ho_id : option Z;
  ho_product_id : ustr;
  ho_original_value : ustr;
  ho_converted_color_id : option Z;
  ho_converted_size_id : option Z;
  ho_conversion_type : ustr;
  ho_status : ustr;
  ho_confidence : Q;
  ho_error_message : option ustr;
  ho_created_at : Z;
  ho_updated_at : Z
}.

Section Datetimes.

(** [datetime.isoformat()] and [datetime.fromisoformat(s)] ([None]: it
    raises). *)
Variable isoformat : Z -> ustr.
Variable fromisoformat : ustr -> option Z.

(** [t.isoformat() if t else None]: a datetime is always true. *)
Definition of_opt_time (t : option Z) : PyVal :=
  match t with Some v => VStr (isoformat v) | None => VNone end.

(** [datetime.fromisoformat(data[k]) if data.get(k) else None]; a value that
    is not a string makes [fromisoformat] raise [TypeError]. *)
Definition time_field (d : PyDict) (k : ustr) : option (option Z) :=
  let v := get_or d k VNone in
  if py_truthy v then
    match v with
    | VStr s => let? t := fromisoformat s in Some (Some t)
    | _ => None
    end
  else Some None.

(** [__post_init__]: [created_at], then [updated_at], is set to a fresh
    [datetime.now()] when still [None]; [now n] is the reading of the
    [n]-th call of the clock made there. *)
Definition post_init_times (now : nat -> Z) (ca ua : option Z) : Z * Z :=
  match ca with
  | Some c => (c, match ua with Some v => v | None => now O end)
  | None => (now O, match ua with Some v => v | None => now 1%nat end)
  end.

Definition rule_to_dict (r : RuleObj) : PyDict :=
  [(u "id", of_opt_int (ro_id r));
   (u "source_name", VStr (ro_source_name r));
   (u "target_id", VInt (ro_target_id r));
   (u "target_name", VStr (ro_target_name r));
   (u "confidence", VFloat (PFin (ro_confidence r)));
   (u "is_active", VBool (ro_is_active r));
   (u "created_at", of_opt_time (Some (ro_created_at r)));
   (u "updated_at", of_opt_time (Some (ro_updated_at r)))].

(** [ConversionRule.from_dict(data)], [now] being the clock read by
    [__post_init__]. *)
Definition rule_from_dict (now : nat -> Z) (d : PyDict) : option RuleObj :=
  let? i := as_opt_int (get_or d (u "id") VNone) in
  let? sn := as_str (get_or d (u "source_name") (VStr [])) in
  let? ti := as_int (get_or d (u "target_id") (VInt 0)) in
  let? tn := as_str (get_or d (u "target_name") (VStr [])) in
  let? c := as_float (get_or d (u "confidence") (VFloat (PFin 1))) in
  let? a := as_bool (get_or d (u "is_active") (VBool true)) in
  let? ca := time_field d (u "created_at") in
  let? ua := time_field d (u "updated_at") in
  let (cat, uat) := post_init_times now ca ua in
  Some (mkRuleObj i sn ti tn c a cat uat).

Definition batch_to_dict (b : ConvBatch) : PyDict :=
  [(u "id", of_opt_int (cb_id b));
   (u "batch_name", VStr (cb_batch_name b));
   (u "total_records", VInt (cb_total_records b));
   (u "processed_records", VInt (cb_processed_records b));
   (u "successful_records", VInt (cb_successful_records b));
   (u "failed_records", VInt (cb_failed_records b));
   (u "status", VStr (cb_status b));
   (u "started_at", of_opt_time (cb_started_at b));
   (u "completed_at", of_opt_time (cb_completed_at b));
   (u "created_at", of_opt_time (Some (cb_created_at b)));
   (u "updated_at", of_opt_time (Some (cb_updated_at b)))].

(** [ConversionBatch.from_dict(data)] *)
Definition batch_from_dict (now : nat -> Z) (d : PyDict) : option ConvBatch :=
  let? i := as_opt_int (get_or d (u "id") VNone) in
  let? bn := as_str (get_or d (u "batch_name") (VStr [])) in
  let? tr := as_int (get_or d (u "total_records") (VInt 0)) in
  let? pr := as_int (get_or d (u "processed_records") (VInt 0)) in
  let? sr := as_int (get_or d (u "successful_records") (VInt 0)) in
  let? fr := as_int (get_or d (u "failed_records") (VInt 0)) in
  let? st := as_str (get_or d (u "status") (VStr s_pending)) in
  let? sa := time_field d (u "started_at") in
  let? co := time_field d (u "completed_at") in
  let? ca := time_field d (u "created_at") in
  let? ua := time_field d (u "updated_at") in
  let (cat, uat) := post_init_times now ca ua in
  Some (mkConvBatch i bn tr pr sr fr st sa co cat uat).

Definition history_to_dict (h : HistoryObj) : PyDict :=
  [(u "id", of_opt_int (ho_id h));
   (u "product_id", VStr (ho_product_id h));
   (u "original_value", VStr (ho_original_value h));
   (u "converted_color_id", of_opt_int (ho_converted_color_id h));
   (u "converted_size_id", of_opt_int (ho_converted_size_id h));
   (u "conversion_type", VStr (ho_conversion_type h));
   (u "status", VStr (ho_status h));
   (u "confidence", VFloat (PFin (ho_confidence h)));
   (u "error_message", of_opt_str (ho_error_message h));
   (u "created_at", of_opt_time (Some (ho_created_at h)));
   (u "updated_at", of_opt_time (Some (ho_updated_at h)))].

(** [ConversionHistory.from_dict(data)] *)
Definition history_from_dict (now : nat -> Z) (d : PyDict) : option HistoryObj :=
  let? i := as_opt_int (get_or d (u "id") VNone) in
  let? pid := as_str (get_or d (u "product_id") (VStr [])) in
  let? ov := as_str (get_or d (u "original_value") (VStr [])) in
  let? cci := as_opt_int (get_or d (u "converted_color_id") VNone) in
  let? csi := as_opt_int (get_or d (u "converted_size_id") VNone) in
  let? ct := as_str (get_or d (u "conversion_type") (VStr [])) in
  let? st := as_str (get_or d (u "status") (VStr [])) in
  let? c := as_float (get_or d (u "confidence") (VFloat (PFin 1))) in
  let? em := as_opt_str (get_or d (u "error_message") VNone) in
  let? ca := time_field d (u "created_at") in
  let? ua := time_field d (u "updated_at") in
  let (cat, uat) := post_init_times now ca ua in
  Some (mkHistoryObj i pid ov cci csi ct st c em cat uat).

End Datetimes.

(** ** The validators ([utils/validators.py]) *)

(** The outcome of a validator that returns [None] or raises
    [ValidationError(msg)]. *)
Inductive Check := Pass | Raise (msg : ustr).

(** [c1] then [c2]: the first raise propagates. *)
Definition then_check (c1 c2 : Check) : Check :=
  match c1 with Pass => c2 | Raise m => Raise m end.

(** Other Python exceptions the validators can meet. *)
Inductive PyExc := ValueError | TypeError | OverflowError.

Inductive PyOut (A : Type) := POk (a : A) | PRaise (e : PyExc).
Arguments POk {A} a.
Arguments PRaise {A} e.

(** [str(n)] for a Python int. *)
Definition py_str_of_int (n : Z) : ustr :=
  if n <? 0 then 45 :: digits (- n) else digits n.

Definition msg_is_required : ustr := [12399; 24517; 38920; 38917; 30446; 12391; 12377].
Definition msg_must_be_str : ustr :=
  [12399; 25991; 23383; 21015; 12391; 12354; 12427; 24517; 35201; 12364; 12354; 12426;
   12414; 12377].
Definition msg_chars_at_least : ustr :=
  [25991; 23383; 20197; 19978; 12391; 12354; 12427; 24517; 35201; 12364; 12354; 12426;
   12414; 12377].
Definition msg_chars_at_most : ustr :=
  [25991; 23383; 20197; 19979; 12391; 12354; 12427; 24517; 35201; 12364; 12354; 12426;
   12414; 12377].
Definition msg_must_be_number : ustr :=
  [12399; 25968; 20516; 12391; 12354; 12427; 24517; 35201; 12364; 12354; 12426; 12414;
   12377].
Definition msg_at_least : ustr :=
  [20197; 19978; 12391; 12354; 12427; 24517; 35201; 12364; 12354; 12426; 12414; 12377].
Definition msg_at_most : ustr :=
  [20197; 19979; 12391; 12354; 12427; 24517; 35201; 12364; 12354; 12426; 12414; 12377].

(** "商品ID", "カラー名", "サイズ名", "信頼度" *)
Definition fld_product_id : ustr := [21830; 21697; 73; 68].
Definition fld_color_name : ustr := [12459; 12521; 12540; 21517].
Definition fld_size_name : ustr := [12469; 12452; 12474; 21517].
Definition fld_confidence : ustr := [20449; 38972; 24230].

(** [validate_required(value, field_name)] *)
Definition validate_required (value : PyVal) (field_name : ustr) : Check :=
  match value with
  | VNone => Raise (field_name ++ msg_is_required)
  | VStr s => if is_blank (strip s) then Raise (field_name ++ msg_is_required) else Pass
  | _ => Pass
  end.

(** [validate_string_length(value, field_name, max_length, min_length)];
    [len] counts code points. *)
Definition validate_string_length (value : PyVal) (field_name : ustr)
    (max_length min_length : Z) : Check :=
  match value with
  | VStr s =>
      if zlen s <? min_length then
        Raise (field_name ++ [12399] ++ py_str_of_int min_length ++ msg_chars_at_least)
      else if max_length <? zlen s then
        Raise (field_name ++ [12399] ++ py_str_of_int max_length ++ msg_chars_at_most)
      else Pass
  | _ => Raise (field_name ++ msg_must_be_str)
  end.

(** [value < bound] and [value > bound] for a float against a finite bound. *)
Definition flt_lt (f : PyFloat) (q : Q) : bool :=
  match f with PFin x => negb (Qle_bool q x) | PNaN => false | PInf neg => neg end.

Definition flt_gt (f : PyFloat) (q : Q) : bool :=
  match f with PFin x => negb (Qle_bool x q) | PNaN => false | PInf neg => negb neg end.

(** [isinstance(value, (int, float))]: a [bool] is an [int]. *)
Definition py_number (v : PyVal) : option PyFloat :=
  match v with
  | VBool b => Some (PFin (if b then 1 else 0))
  | VInt z => Some (PFin (inject_Z z))
  | VFloat f => Some f
  | _ => None
  end.

(** [validate_float_range(value, field_name, min_value, max_value)]; each
    bound comes with its [str()]. *)
Definition validate_float_range (value : PyVal) (field_name : ustr)
    (min_value max_value : option (Q * ustr)) : Check :=
  match py_number value with
  | None => Raise (field_name ++ msg_must_be_number)
  | Some f =>
      then_check
        (match min_value with
         | Some (lo, lo_s) =>
             if flt_lt f lo then Raise (field_name ++ [12399] ++ lo_s ++ msg_at_least) else Pass
         | None => Pass
         end)
        (match max_value with
         | Some (hi, hi_s) =>
             if flt_gt f hi then Raise (field_name ++ [12399] ++ hi_s ++ msg_at_most) else Pass
         | None => Pass
         end)
  end.

(** [re.match(r'^[a-zA-Z0-9\-_]+$', s)]: [$] also matches before a final
    newline. *)
Definition is_pid_char (c : Z) : bool :=
  ((97 <=? c) && (c <=? 122)) || ((65 <=? c) && (c <=? 90)) ||
  ((48 <=? c) && (c <=? 57)) || (c =? 45) || (c =? 95).

(** The rest of the string after the first character: the end, the final
    newline, or one more allowed character and a valid rest. *)
Fixpoint pid_tail (s : ustr) : bool :=
  match s with
  | [] => true
  | c :: s' => ((c =? 10) && is_blank s') || (is_pid_char c && pid_tail s')
  end.

Definition pid_pattern_match (s : ustr) : bool :=
  match s with [] => false | c :: s' => is_pid_char c && pid_tail s' end.

(** "商品IDは英数字、ハイフン、アンダースコアのみ使用できます" *)
Definition msg_bad_product_id : ustr :=
  [21830; 21697; 73; 68; 12399; 33521; 25968; 23383; 12289; 12495; 12452; 12501; 12531;
   12289; 12450; 12531; 12480; 12540; 12473; 12467; 12450; 12398; 12415; 20351; 29992;
   12391; 12365; 12414; 12377].

(** [validate_product_id(product_id)] for a [str] argument. *)
Definition validate_product_id (product_id : ustr) : Check :=
  then_check (validate_required (VStr product_id) fld_product_id)
    (then_check (validate_string_length (VStr product_id) fld_product_id 50 1)
       (if pid_pattern_match product_id then Pass else Raise msg_bad_product_id)).

Definition validate_color_name (color_name : PyVal) : Check :=
  then_check (validate_required color_name fld_color_name)
    (validate_string_length color_name fld_color_name 100 1).

Definition validate_size_name (size_name : PyVal) : Check :=
  then_check (validate_required size_name fld_size_name)
    (validate_string_length size_name fld_size_name 100 1).

(** [validate_confidence(confidence)]: [str(0.0)] is "0.0", [str(1.0)] is "1.0". *)
Definition validate_confidence (confidence : PyVal) : Check :=
  validate_float_range confidence fld_confidence (Some (0%Q, u "0.0")) (Some (1%Q, u "1.0")).

Definition msg_rule_prefix : ustr := [22793; 25563; 12523; 12540; 12523; 12398].
Definition msg_is_missing : ustr := [12364; 19981; 36275; 12375; 12390; 12356; 12414; 12377].
Definition msg_confidence_range : ustr :=
  [20449; 38972; 24230; 12399; 48; 46; 48; 45; 49; 46; 48; 12398; 31684; 22258; 12391;
   12354; 12427; 24517; 35201; 12364; 12354; 12426; 12414; 12377].
Definition msg_confidence_number : ustr :=
  [20449; 38972; 24230; 12399; 25968; 20516; 12391; 12354; 12427; 24517; 35201; 12364;
   12354; 12426; 12414; 12377].

(** [for field in fields: if field not in d or not d[field]:
    errors.append(prefix + field + suffix)] *)
Definition missing_fields (prefix : ustr) (d : PyDict) (fields : list ustr) : list ustr :=
  map (fun f => prefix ++ f ++ msg_is_missing) (filter (missing_or_falsy d) fields).

Definition rule_required_fields : list ustr := [u "source_name"; u "target_id"; u "target_name"].

(** The smallest integer magnitude [float()] rounds to infinity. *)
Definition float_overflow_bound : Z := 2 ^ 1024 - 2 ^ 970.

Section Parsing.

(** [float(s)] and [int(s)] on a string ([None]: [ValueError]). *)
Variable parse_float : ustr -> option PyFloat.
Variable parse_int : ustr -> option Z.

(** [float(v)].  For an int the value is rounded to the nearest double,
    which keeps its order against 0.0 and 1.0, the only use made of it. *)
Definition py_float (v : PyVal) : PyOut PyFloat :=
  match v with
  | VNone => PRaise TypeError
  | VBool b => POk (PFin (if b then 1 else 0))
  | VInt z => if float_overflow_bound <=? Z.abs z then PRaise OverflowError
              else POk (PFin (inject_Z z))
  | VFloat f => POk f
  | VStr s => match parse_float s with Some f => POk f | None => PRaise ValueError end
  end.

(** [int(v)]: a float is truncated toward zero. *)
Definition py_int (v : PyVal) : PyOut Z :=
  match v with
  | VNone => PRaise TypeError
  | VBool b => POk (if b then 1 else 0)
  | VInt z => POk z
  | VFloat (PFin q) => POk (Z.quot (Qnum q) (Zpos (Qden q)))
  | VFloat PNaN => PRaise ValueError
  | VFloat (PInf _) => PRaise OverflowError
  | VStr s => match parse_int s with Some z => POk z | None => PRaise ValueError end
  end.

(** [validate_conversion_rule(rule_data)] *)
Definition validate_conversion_rule (rule_data : PyDict) : PyOut (list ustr) :=
  let errors := missing_fields msg_rule_prefix rule_data rule_required_fields in
  match dict_get rule_data (u "confidence") with
  | None => POk errors
  | Some v =>
      match py_float v with
      | POk f => POk (errors ++ (if flt_lt f 0 || flt_gt f 1 then [msg_confidence_range] else []))
      | PRaise ValueError | PRaise TypeError => POk (errors ++ [msg_confidence_number])
      | PRaise e => PRaise e
      end
  end.

Definition msg_sqlserver_prefix : ustr :=
  [83; 81; 76; 32; 83; 101; 114; 118; 101; 114; 35373; 23450; 12398].
Definition msg_mariadb_prefix : ustr := [77; 97; 114; 105; 97; 68; 66; 35373; 23450; 12398].
Definition msg_port_range : ustr :=
  [12509; 12540; 12488; 30058; 21495; 12399; 49; 45; 54; 53; 53; 51; 53; 12398; 31684;
   22258; 12391; 12354; 12427; 24517; 35201; 12364; 12354; 12426; 12414; 12377].
Definition msg_port_number : ustr :=
  [12509; 12540; 12488; 30058; 21495; 12399; 25968; 20516; 12391; 12354; 12427; 24517;
   35201; 12364; 12354; 12426; 12414; 12377].

Definition sqlserver_fields : list ustr := [u "driver"; u "server"; u "database"].
Definition mariadb_fields : list ustr :=
  [u "host"; u "port"; u "user"; u "password"; u "database"].

(** [validate_database_config(config, db_type)]; only [ValueError] is caught
    around [int(config['port'])]. *)
Definition validate_database_config (config : PyDict) (db_type : ustr) : PyOut (list ustr) :=
  if ustr_eqb db_type (u "sqlserver") then
    POk (missing_fields msg_sqlserver_prefix config sqlserver_fields)
  else if ustr_eqb db_type (u "mariadb") then
    let errors := missing_fields msg_mariadb_prefix config mariadb_fields in
    match dict_get config (u "port") with
    | None => POk errors
    | Some v =>
        match py_int v with
        | POk port =>
            POk (errors ++ (if (port <? 1) || (65535 <? port) then [msg_port_range] else []))
        | PRaise ValueError => POk (errors ++ [msg_port_number])
        | PRaise e => PRaise e
        end
    end
  else POk [].

End Parsing.

(** ** Sample data *)

(** A stand-in for the datetime text: one code point holding the time. *)
Definition iso_list (t : Z) : ustr := [t].
Definition fromiso_list (s : ustr) : option Z := match s with [t] => Some t | _ => None end.

Definition no_fault : nat -> bool := fun _ => false.
Definition first_call_fails : nat -> bool := fun n => Nat.eqb n 0.

Definition rule_red : ConversionRule := mkRule 1 (u "Red") 1 (u "Red") 1 true 0 0.
Definition rule_red_dup : ConversionRule :=
  mkRule 2 (u "red") 2 (u "RED") (9 # 10) true 0 0.
Definition rule_winered : ConversionRule :=
  mkRule 3 (u "Wine Red") 3 (u "Wine") (9 # 10) true 0 0.
Definition rule_m : ConversionRule := mkRule 1 (u "M") 20 (u "M") 1 true 0 0.
Definition rule_negative : ConversionRule :=
  mkRule 1 (u "Red") 1 (u "Red") (-(1 # 2)) true 0 0.

Definition empty_db : DB := mkDB [] [] [] [] [] 0.
Definition sample_db : DB := mkDB [rule_red_dup; rule_red] [rule_m] [] [] [] 0.
Definition negative_db : DB := mkDB [rule_negative] [] [] [] [] 0.

Definition row_red : Row := mkRow (u "P001") (Some (u "red")) (Some (u "M")) None None None.
Definition row_red_only : Row := mkRow (u "P002") (Some (u "Red")) None None None None.

Definition sample_products : list Product :=
  [mkProduct (u "P001") (u "Shirt") (Some (u "Red")) (Some (u "M")) None (Some 1) None;
   mkProduct (u "P002") (u "Cap") None None None (Some 2) (Some 20);
   mkProduct (u "P003") (u "Sock") (Some (u "Blue")) None None None None;
   mkProduct (u "P001") (u "Shirt") (Some (u "Wine")) (Some (u "M")) None (Some 3) None].

(** ** Auxiliary notions used in the statements *)

(** The substring relation tested by the second loop. *)
Definition related (lower : ustr -> ustr) (name : ustr) (r : ConversionRule) : Prop :=
  containsb (lower name) (lower (source_name r)) = true \/
  containsb (lower (source_name r)) (lower name) = true.

(** What the matcher gave for each field of a row ([None] when the field was
    not attempted). *)
Definition color_attempt (lower : ustr -> ustr) (convert_colors : bool) (row : Row)
    (db : DB) : option (Z * ustr * Q) :=
  if convert_colors && isna (df_color_id row)
  then resolve lower (df_color_name row) (select_active_rules (color_rules_tbl db))
  else None.

Definition size_attempt (lower : ustr -> ustr) (convert_sizes : bool) (row : Row)
    (db : DB) : option (Z * ustr * Q) :=
  if convert_sizes && isna (df_size_id row)
  then resolve lower (df_size_name row) (select_active_rules (size_rules_tbl db))
  else None.

(** The confidences the matcher returned for a row, color first. *)
Definition resolved_confs (cr sr : option (Z * ustr * Q)) : list Q :=
  match cr with Some t => [conf3 t] | None => [] end ++
  match sr with Some t => [conf3 t] | None => [] end.

Section BatchTrace.

Variable fault : nat -> bool.
Variable lower : ustr -> ustr.
Variables (cc cs : bool) (th : Q).

(** How each row of a batch ended, from the store before it: skipped when
    the part before [results.append] raised (the history is untouched); a
    result without a history entry when the INSERT of
    [add_conversion_history], its first storage call, raised; otherwise a
    result and exactly the one history entry written for it.  The next row
    starts from the store the previous one left. *)
Inductive batch_trace : DB -> list Row -> list ConversionResult ->
    list ConversionHistory -> Prop :=
| bt_nil db : batch_trace db [] [] []
| bt_skipped db db1 ex row rows res hs :
    build_result fault lower cc cs th row db = (Err ex, db1) ->
    history_tbl db1 = history_tbl db ->
    batch_trace db1 rows res hs -> batch_trace db (row :: rows) res hs
| bt_result_only db db1 row r rows res hs :
    build_result fault lower cc cs th row db = (Ok r, db1) ->
    fault (ticks db1) = true ->
    fst (record_history fault r db1) = Err DatabaseError ->
    history_tbl (snd (record_history fault r db1)) = history_tbl db1 ->
    product_id r = df_product_id row ->
    batch_trace (snd (record_history fault r db1)) rows res hs ->
    batch_trace db (row :: rows) (r :: res) hs
| bt_both db db1 row r e rows res hs :
    build_result fault lower cc cs th row db = (Ok r, db1) ->
    fault (ticks db1) = false ->
    history_tbl (snd (record_history fault r db1)) = history_tbl db1 ++ [e] ->
    product_id r = df_product_id row ->
    h_product_id e = product_id r -> h_status e = status r ->
    batch_trace (snd (record_history fault r db1)) rows res hs ->
    batch_trace db (row :: rows) (r :: res) (e :: hs).

End BatchTrace.

(** The columns that [ON CONFLICT DO UPDATE] leaves alone or copies from the
    VALUES row: everything but [updated_at]. *)
Definition forget_updated (r : TargetRow) : Z * ustr * ustr * ustr * Z * Z :=
  (trow_id r, t_product_id r, t_product_name r, t_item_name r, t_item_id r,
   t_created_at r).

Definition row_fields (r : TargetRow) : ustr * ustr * Z :=
  (t_product_name r, t_item_name r, t_item_id r).

Definition val_fields (v : ValueRow) : ustr * ustr * Z :=
  (v_product_name v, v_item_name v, v_item_id v).

(** The last VALUES row of the statement with key [k]. *)
Fixpoint last_val (vs : list ValueRow) (k : ustr) : option ValueRow :=
  match vs with
  | [] => None
  | v :: vs' =>
      match last_val vs' k with
      | Some w => Some w
      | None => if ustr_eqb (v_product_id v) k then Some v else None
      end
  end.

(** All conflict updates of the statement, in order, on one existing row. *)
Definition apply_all (vs : list ValueRow) (r : TargetRow) : TargetRow :=
  fold_left (fun r v => set_on_conflict v r) vs r.

(** Two VALUES lists that agree on everything but the timestamps. *)
Definition same_values (vs1 vs2 : list ValueRow) : Prop :=
  map (fun v => (v_product_id v, val_fields v)) vs1 =
  map (fun v => (v_product_id v, val_fields v)) vs2.

Definition conf_in_unit (r : ConversionRule) : Prop :=
  (0 <= confidence r /\ confidence r <= 1)%Q.

(** * Proofs *)

Lemma ustr_eqb_eq (a b : ustr) : ustr_eqb a b = true <-> a = b.
Proof.
  unfold ustr_eqb; destruct (list_eq_dec Z.eq_dec a b); split; congruence.
Qed.

Lemma ustr_eqb_neq (a b : ustr) : a <> b -> ustr_eqb a b = false.
Proof.
  unfold ustr_eqb; destruct (list_eq_dec Z.eq_dec a b); congruence.
Qed.

Lemma tick_tables (db : DB) :
  color_rules_tbl (tick db) = color_rules_tbl db /\
  size_rules_tbl (tick db) = size_rules_tbl db /\
  history_tbl (tick db) = history_tbl db /\
  tm9030color (tick db) = tm9030color db /\
  tm9035size (tick db) = tm9035size db /\
  ticks (tick db) = S (ticks db).
Proof. repeat split. Qed.

(** [convert_color] is the Matcher run on the active color rules in
    [ORDER BY] order; it only reads storage. *)
Lemma convert_color_ok (fault : nat -> bool) (lower : ustr -> ustr)
    (n : option ustr) (db : DB) :
  (str_truthy n = true -> fault (ticks db) = false) ->
  convert_color fault lower n db =
    (Ok (resolve lower n (select_active_rules (color_rules_tbl db))),
     if str_truthy n then tick db else db).
Proof.
  intros Hf; unfold convert_color, get_color_rules, rethrow_as, storage, bind, ret.
  destruct n as [[|c s]|]; simpl in *; try reflexivity.
  rewrite Hf by reflexivity; reflexivity.
Qed.

Lemma convert_size_ok (fault : nat -> bool) (lower : ustr -> ustr)
    (n : option ustr) (db : DB) :
  (str_truthy n = true -> fault (ticks db) = false) ->
  convert_size fault lower n db =
    (Ok (resolve lower n (select_active_rules (size_rules_tbl db))),
     if str_truthy n then tick db else db).
Proof.
  intros Hf; unfold convert_size, get_size_rules, rethrow_as, storage, bind, ret.
  destruct n as [[|c s]|]; simpl in *; try reflexivity.
  rewrite Hf by reflexivity; reflexivity.
Qed.

Lemma exact_match_app (lower : ustr -> ustr) (name : ustr)
    (pre post : list ConversionRule) (r : ConversionRule) :
  Forall (fun r' => lower (source_name r') <> lower name) pre ->
  lower (source_name r) = lower name ->
  exact_match lower name (pre ++ r :: post) =
    Some (target_id r, target_name r, confidence r).
Proof.
  intros Hpre Hr; induction Hpre as [|r' pre' Hr' _ IH]; simpl.
  - rewrite (proj2 (ustr_eqb_eq _ _) Hr); reflexivity.
  - rewrite (ustr_eqb_neq _ _ Hr'); exact IH.
Qed.

Lemma exact_match_none (lower : ustr -> ustr) (name : ustr)
    (rules : list ConversionRule) :
  Forall (fun r' => lower (source_name r') <> lower name) rules ->
  exact_match lower name rules = None.
Proof.
  induction 1 as [|r' rs Hr' _ IH]; simpl; [reflexivity|].
  rewrite (ustr_eqb_neq _ _ Hr'); exact IH.
Qed.
Lemma partial_match_app (lower : ustr -> ustr) (name : ustr)
    (pre post : list ConversionRule) (r : ConversionRule) :
  Forall (fun r' => ~ related lower name r') pre ->
  related lower name r ->
  partial_match lower name (pre ++ r :: post) =
    Some (target_id r, target_name r, (confidence r * (8 # 10))%Q).
Proof.
  unfold related; intros Hpre Hr; induction Hpre as [|r' pre' Hr' _ IH]; simpl.
  - destruct Hr as [H|H]; rewrite H; [reflexivity|].
    rewrite orb_true_r; reflexivity.
  - destruct (containsb (lower name) (lower (source_name r'))) eqn:E1;
      [exfalso; apply Hr'; left; reflexivity|].
    destruct (containsb (lower (source_name r')) (lower name)) eqn:E2;
      [exfalso; apply Hr'; right; reflexivity|].
    exact IH.
Qed.

Lemma partial_match_none (lower : ustr -> ustr) (name : ustr)
    (rules : list ConversionRule) :
  Forall (fun r' => ~ related lower name r') rules ->
  partial_match lower name rules = None.
Proof.
  unfold related; induction 1 as [|r' rs Hr' _ IH]; simpl; [reflexivity|].
  destruct (containsb (lower name) (lower (source_name r'))) eqn:E1;
    [exfalso; apply Hr'; left; reflexivity|].
  destruct (containsb (lower (source_name r')) (lower name)) eqn:E2;
    [exfalso; apply Hr'; right; reflexivity|].
  exact IH.
Qed.

(** C2: for a non-empty name, when some rule's [source_name] equals the name
    case-insensitively, the Matcher returns the first such rule of the rule
    sequence (the active rules in [ORDER BY source_name] order, as loaded by
    [convert_color] and [convert_size]) with its [target_id], [target_name]
    and stored confidence unchanged; earlier duplicates win. *)
Theorem convert_exact_first_wins (fault : nat -> bool) (lower : ustr -> ustr)
    (db : DB) (name : ustr) (pre post : list ConversionRule) (r : ConversionRule) :
  fault (ticks db) = false ->
  name <> [] ->
  Forall (fun r' => lower (source_name r') <> lower name) pre ->
  lower (source_name r) = lower name ->
  resolve lower (Some name) (pre ++ r :: post) =
    Some (target_id r, target_name r, confidence r) /\
  (select_active_rules (color_rules_tbl db) = pre ++ r :: post ->
   fst (convert_color fault lower (Some name) db) =
     Ok (Some (target_id r, target_name r, confidence r))) /\
  (select_active_rules (size_rules_tbl db) = pre ++ r :: post ->
   fst (convert_size fault lower (Some name) db) =
     Ok (Some (target_id r, target_name r, confidence r))).
Proof.
  intros Hf Hn Hpre Hr.
  assert (Hres : resolve lower (Some name) (pre ++ r :: post) =
                 Some (target_id r, target_name r, confidence r)).
  { destruct name as [|c s]; [congruence|].
    unfold resolve; rewrite (exact_match_app lower _ pre post r Hpre Hr); reflexivity. }
  split; [exact Hres|]; split; intros Hsel.
  - rewrite convert_color_ok by (intros; exact Hf); cbn [fst]; rewrite Hsel, Hres; reflexivity.
  - rewrite convert_size_ok by (intros; exact Hf); cbn [fst]; rewrite Hsel, Hres; reflexivity.
Qed.

(** C3: for a non-empty name with no exact case-insensitive match, the
    Matcher returns the first rule whose [source_name] contains the name or is
    contained in it (case-insensitively), with confidence [confidence * 0.8];
    with neither an exact nor a substring match it returns no match, and
    [convert_color] / [convert_size] return [None] rather than raising. *)
Theorem convert_substring_then_none (fault : nat -> bool) (lower : ustr -> ustr) :
  (forall (name : ustr) (pre post : list ConversionRule) (r : ConversionRule),
     name <> [] ->
     Forall (fun r' => lower (source_name r') <> lower name) (pre ++ r :: post) ->
     Forall (fun r' => ~ related lower name r') pre ->
     related lower name r ->
     resolve lower (Some name) (pre ++ r :: post) =
       Some (target_id r, target_name r, (confidence r * (8 # 10))%Q)) /\
  (forall (name : ustr) (rules : list ConversionRule) (db : DB),
     Forall (fun r' => lower (source_name r') <> lower name) rules ->
     Forall (fun r' => ~ related lower name r') rules ->
     resolve lower (Some name) rules = None /\
     (fault (ticks db) = false -> select_active_rules (color_rules_tbl db) = rules ->
      fst (convert_color fault lower (Some name) db) = Ok None) /\
     (fault (ticks db) = false -> select_active_rules (size_rules_tbl db) = rules ->
      fst (convert_size fault lower (Some name) db) = Ok None)).
Proof.
  split.
  - intros name pre post r Hn Hex Hpre Hr.
    destruct name as [|c s]; [congruence|]; unfold resolve.
    rewrite (exact_match_none lower _ _ Hex).
    apply partial_match_app; assumption.
  - intros name rules db Hex Hrel.
    assert (Hres : resolve lower (Some name) rules = None).
    { destruct name as [|c s]; [reflexivity|]; unfold resolve.
      rewrite (exact_match_none lower _ _ Hex), (partial_match_none lower _ _ Hrel).
      reflexivity. }
    split; [exact Hres|]; split; intros Hf Hsel.
    + rewrite convert_color_ok by (intros; exact Hf); cbn [fst]; rewrite Hsel, Hres; reflexivity.
    + rewrite convert_size_ok by (intros; exact Hf); cbn [fst]; rewrite Hsel, Hres; reflexivity.
Qed.

Lemma existsb_eqb_in (d : Z) (s : ustr) : existsb (Z.eqb d) s = true <-> In d s.
Proof.
  rewrite existsb_exists; split.
  - intros [x [Hx Heq]]; apply Z.eqb_eq in Heq; subst; exact Hx.
  - intros H; exists d; split; [exact H | apply Z.eqb_refl].
Qed.

Lemma split1_first (sep : Z) (l r : ustr) :
  ~ In sep l -> split1 sep (l ++ sep :: r) = [l; r].
Proof.
  induction l as [|c l IH]; intros Hl; simpl.
  - rewrite Z.eqb_refl; reflexivity.
  - assert (Hc : c <> sep) by (intro; apply Hl; left; assumption).
    apply Z.eqb_neq in Hc; rewrite Hc.
    rewrite IH by (intro; apply Hl; right; assumption); reflexivity.
Qed.

Lemma parse_with_skip (seps : list Z) (s : ustr) (d : Z) :
  ~ In d s -> parse_with (d :: seps) s = parse_with seps s.
Proof.
  intros Hd; simpl.
  destruct (existsb (Z.eqb d) s) eqn:E; [|reflexivity].
  apply existsb_eqb_in in E; contradiction.
Qed.

Lemma parse_with_none (seps : list Z) (s : ustr) :
  Forall (fun d => ~ In d s) seps -> parse_with seps s = (Some (strip s), None).
Proof.
  induction 1 as [|d ds Hd _ IH]; [reflexivity|].
  rewrite parse_with_skip by exact Hd; exact IH.
Qed.

(** C5: [_parse_composite_value] tries '/', '-', '_', ' ' in that order; at
    the first one present it splits at its first occurrence and returns both
    parts trimmed; with none present it returns the trimmed string and
    [None]; in particular "レッド/M", "Blue-L" and "GreenS" split as
    ("レッド", "M"), ("Blue", "L") and ("GreenS", None). *)
Theorem parse_composite_value_spec :
  (forall (s : ustr) (skipped rest : list Z) (sep : Z) (l r : ustr),
     separators = skipped ++ sep :: rest ->
     Forall (fun d => ~ In d s) skipped ->
     s = l ++ sep :: r ->
     ~ In sep l ->
     _parse_composite_value s = (Some (strip l), Some (strip r))) /\
  (forall s : ustr,
     Forall (fun d => ~ In d s) separators ->
     _parse_composite_value s = (Some (strip s), None)) /\
  _parse_composite_value (reddo ++ u "/M") = (Some reddo, Some (u "M")) /\
  _parse_composite_value (u "Blue-L") = (Some (u "Blue"), Some (u "L")) /\
  _parse_composite_value (u "GreenS") = (Some (u "GreenS"), None).
Proof.
  split; [|split; [|repeat split]].
  - intros s skipped rest sep l r Hseps Hskip Hs Hl.
    unfold _parse_composite_value; rewrite Hseps; clear Hseps.
    induction Hskip as [|d ds Hd _ IH].
    + simpl.
      assert (Hin : existsb (Z.eqb sep) s = true).
      { apply existsb_eqb_in; rewrite Hs; apply in_or_app; right; left; reflexivity. }
      rewrite Hin, Hs, (split1_first sep l r Hl); reflexivity.
    + rewrite <- app_comm_cons, parse_with_skip by exact Hd; exact IH.
  - intros s H; apply parse_with_none; exact H.
Qed.

Lemma guarded_color_ok (fault : nat -> bool) (lower : ustr -> ustr)
    (n : option ustr) (db : DB) :
  (forall k, fault k = false) ->
  exists db', (if str_truthy n then convert_color fault lower n else ret None) db =
    (Ok (resolve lower n (select_active_rules (color_rules_tbl db))), db') /\
    size_rules_tbl db' = size_rules_tbl db.
Proof.
  intros Hf; destruct (str_truthy n) eqn:E.
  - rewrite convert_color_ok by (intros; apply Hf); rewrite E.
    eexists; split; reflexivity.
  - exists db; split; [|reflexivity].
    destruct n as [[|c s]|]; simpl in E; try discriminate; reflexivity.
Qed.

Lemma guarded_size_ok (fault : nat -> bool) (lower : ustr -> ustr)
    (n : option ustr) (db : DB) :
  (forall k, fault k = false) ->
  exists db', (if str_truthy n then convert_size fault lower n else ret None) db =
    (Ok (resolve lower n (select_active_rules (size_rules_tbl db))), db').
Proof.
  intros Hf; destruct (str_truthy n) eqn:E.
  - rewrite convert_size_ok by (intros; apply Hf); rewrite E.
    eexists; reflexivity.
  - exists db.
    destruct n as [[|c s]|]; simpl in E; try discriminate; reflexivity.
Qed.

(** C6: [convert_composite] splits the value, matches the color part against
    the color rules and the size part against the size rules, and returns
    the average of both confidences when both resolve, half of the one that
    resolves when only one does, and 0 when neither does. *)
Theorem convert_composite_confidence (fault : nat -> bool) (lower : ustr -> ustr)
    (db : DB) (v : option ustr) :
  (forall n, fault n = false) ->
  let parts := match v with
               | None | Some [] => (None, None)
               | Some s => _parse_composite_value s
               end in
  let cr := resolve lower (fst parts) (select_active_rules (color_rules_tbl db)) in
  let sr := resolve lower (snd parts) (select_active_rules (size_rules_tbl db)) in
  fst (convert_composite fault lower v db) =
    Ok (option_map fst3 cr, option_map fst3 sr,
        match cr, sr with
        | Some (_, _, c), Some (_, _, s) => ((c + s) / 2)%Q
        | Some (_, _, c), None => (c * (5 # 10))%Q
        | None, Some (_, _, s) => (s * (5 # 10))%Q
        | None, None => 0%Q
        end).
Proof.
  intros Hf parts cr sr; subst parts cr sr.
  destruct v as [[|c s]|]; try reflexivity.
  unfold convert_composite, rethrow_as.
  destruct (_parse_composite_value (c :: s)) as [cn sn]; cbn [fst snd].
  destruct (guarded_color_ok fault lower cn db Hf) as [db1 [Hc Hs]].
  destruct (guarded_size_ok fault lower sn db1 Hf) as [db2 Hz].
  rewrite Hs in Hz.
  unfold bind at 1; rewrite Hc; unfold bind at 1; rewrite Hz; unfold ret.
  destruct (resolve lower cn (select_active_rules (color_rules_tbl db))) as [[[? ?] ?]|];
    destruct (resolve lower sn (select_active_rules (size_rules_tbl db)))
      as [[[? ?] ?]|]; reflexivity.
Qed.

Lemma convert_color_result (fault : nat -> bool) (lower : ustr -> ustr)
    (n : option ustr) (db db1 : DB) x :
  convert_color fault lower n db = (Ok x, db1) ->
  x = resolve lower n (select_active_rules (color_rules_tbl db)) /\
  size_rules_tbl db1 = size_rules_tbl db.
Proof.
  unfold convert_color, get_color_rules, rethrow_as, storage, bind, ret.
  destruct n as [[|c s]|]; simpl; intros H; try (inversion H; subst; auto; fail).
  destruct (fault (ticks db)); simpl in H; inversion H; subst; auto.
Qed.

Lemma convert_size_result (fault : nat -> bool) (lower : ustr -> ustr)
    (n : option ustr) (db db1 : DB) x :
  convert_size fault lower n db = (Ok x, db1) ->
  x = resolve lower n (select_active_rules (size_rules_tbl db)).
Proof.
  unfold convert_size, get_size_rules, rethrow_as, storage, bind, ret.
  destruct n as [[|c s]|]; simpl; intros H; try (inversion H; subst; auto; fail).
  destruct (fault (ticks db)); simpl in H; inversion H; subst; auto.
Qed.
Lemma build_result_shape (fault : nat -> bool) (lower : ustr -> ustr)
    (cc cs : bool) (th : Q) (row : Row) (db db' : DB) (r : ConversionResult) :
  build_result fault lower cc cs th row db = (Ok r, db') ->
  r = check_threshold th
        (apply_size (size_attempt lower cs row db)
           (apply_color (color_attempt lower cc row db) (new_result row))).
Proof.
  unfold build_result, color_attempt, size_attempt, bind, ret.
  destruct (cc && isna (df_color_id row)).
  - destruct (convert_color fault lower (df_color_name row) db) as [[x|e] db1] eqn:Hc;
      [|discriminate].
    destruct (convert_color_result _ _ _ _ _ _ Hc) as [Hx Hs]; subst x.
    destruct (cs && isna (df_size_id row)).
    + destruct (convert_size fault lower (df_size_name row) db1) as [[y|e] db2] eqn:Hz;
        [|discriminate].
      apply convert_size_result in Hz; rewrite Hs in Hz; subst y.
      intros H; inversion H; reflexivity.
    + intros H; inversion H; reflexivity.
  - destruct (cs && isna (df_size_id row)).
    + destruct (convert_size fault lower (df_size_name row) db) as [[y|e] db2] eqn:Hz;
        [|discriminate].
      apply convert_size_result in Hz; subst y.
      intros H; inversion H; reflexivity.
    + intros H; inversion H; reflexivity.
Qed.

Lemma success_ne_failed : s_success <> s_failed.
Proof. intros H; vm_compute in H; discriminate H. Qed.
(** C4 (amended): a row's result is [success] exactly when its confidence is
    at least the threshold, otherwise [failed] with the message
    "信頼度不足: " followed by the confidence formatted with two decimals;
    the confidence is Python's [max] of 0.0 and the resolved color and size
    confidences. *)
Theorem batch_status_threshold (fault : nat -> bool) (lower : ustr -> ustr)
    (cc cs : bool) (th : Q) (row : Row) (db db' : DB) (r : ConversionResult) :
  build_result fault lower cc cs th row db = (Ok r, db') ->
  res_confidence r =
    fold_left py_max
      (resolved_confs (color_attempt lower cc row db) (size_attempt lower cs row db)) 0%Q /\
  (status r = s_success <-> (th <= res_confidence r)%Q) /\
  (status r <> s_success ->
   status r = s_failed /\
   error_message r = Some (insufficient_prefix ++ fmt2 (res_confidence r))).
Proof.
  intros H; apply build_result_shape in H; subst r.
  set (x := apply_size _ _).
  assert (Hx : res_confidence x =
    fold_left py_max
      (resolved_confs (color_attempt lower cc row db) (size_attempt lower cs row db)) 0%Q).
  { subst x; destruct (color_attempt lower cc row db) as [[[? ?] ?]|];
      destruct (size_attempt lower cs row db) as [[[? ?] ?]|]; reflexivity. }
  clearbody x; unfold check_threshold.
  destruct (Qle_bool th (res_confidence x)) eqn:E; simpl.
  - apply Qle_bool_iff in E; split; [exact Hx|]; split; [split; auto|].
    intros Hn; congruence.
  - split; [exact Hx|]; split.
    + split; [intros Hs; exfalso; exact (success_ne_failed (eq_sym Hs))|].
      intros Hle; apply Qle_bool_iff in Hle; congruence.
    + intros _; split; reflexivity.
Qed.

(** The first storage call of [add_conversion_history] appends one entry
    carrying the result's IDs, status, confidence and message; a failure of
    the following [last_insert_rowid] query does not undo it. *)
Lemma record_history_appends (fault : nat -> bool) (r : ConversionResult) (db : DB) :
  fault (ticks db) = false ->
  exists e,
    history_tbl (snd (record_history fault r db)) = history_tbl db ++ [e] /\
    h_product_id e = product_id r /\
    h_converted_color_id e = converted_color_id r /\
    h_converted_size_id e = converted_size_id r /\
    h_status e = status r /\
    h_confidence e = res_confidence r /\
    h_error_message e = error_message r.
Proof.
  intros Hf.
  unfold record_history, add_conversion_history, rethrow_as, bind, storage.
  rewrite Hf; simpl.
  destruct (fault (S (ticks db))); simpl; eexists;
    (split; [reflexivity | repeat split]).
Qed.

(** The history table only grows during one record's history call. *)
Lemma record_history_grows (fault : nat -> bool) (r : ConversionResult) (db : DB) :
  exists hs, history_tbl (snd (record_history fault r db)) = history_tbl db ++ hs /\
             (hs = [] \/
              exists e, hs = [e] /\ h_product_id e = product_id r /\
                        h_status e = status r).
Proof.
  destruct (fault (ticks db)) eqn:Hf.
  - exists []; rewrite app_nil_r.
    unfold record_history, add_conversion_history, rethrow_as, bind, storage.
    rewrite Hf; split; [reflexivity | left; reflexivity].
  - destruct (record_history_appends fault r db Hf) as [e [He [Hp [_ [_ [Hs _]]]]]].
    exists [e]; split; [exact He | right; exists e; auto].
Qed.

Lemma build_result_history (fault : nat -> bool) (lower : ustr -> ustr)
    (cc cs : bool) (th : Q) (row : Row) (db : DB) :
  history_tbl (snd (build_result fault lower cc cs th row db)) = history_tbl db.
Proof.
  unfold build_result, convert_color, convert_size, get_color_rules, get_size_rules,
    rethrow_as, storage, bind, ret.
  destruct (cc && isna (df_color_id row)), (str_truthy (df_color_name row)),
    (fault (ticks db)), (cs && isna (df_size_id row)); simpl; try reflexivity;
  repeat match goal with
         | |- context [if ?b then _ else _] => destruct b
         end; reflexivity.
Qed.

(** C10: the result of a row carries the IDs and names the matcher resolved
    for it whatever its status (below the threshold only [status] and
    [error_message] are set), and the history entry written for it carries
    the same IDs. *)
Theorem failed_keeps_resolved_ids (fault : nat -> bool) (lower : ustr -> ustr)
    (cc cs : bool) (th : Q) (row : Row) (db db' : DB) (r : ConversionResult) :
  build_result fault lower cc cs th row db = (Ok r, db') ->
  let cr := color_attempt lower cc row db in
  let sr := size_attempt lower cs row db in
  converted_color_id r = option_map fst3 cr /\
  converted_color_name r = option_map (fun t => snd (fst t)) cr /\
  converted_size_id r = option_map fst3 sr /\
  converted_size_name r = option_map (fun t => snd (fst t)) sr /\
  (fault (ticks db') = false ->
   exists e,
     history_tbl (snd (record_history fault r db')) = history_tbl db' ++ [e] /\
     h_converted_color_id e = converted_color_id r /\
     h_converted_size_id e = converted_size_id r /\
     h_status e = status r).
Proof.
  intros H cr sr.
  assert (Hhist : fault (ticks db') = false ->
     exists e,
       history_tbl (snd (record_history fault r db')) = history_tbl db' ++ [e] /\
       h_converted_color_id e = converted_color_id r /\
       h_converted_size_id e = converted_size_id r /\
       h_status e = status r).
  { intros Hf; destruct (record_history_appends fault r db' Hf)
      as [e [He [_ [Hc [Hs [Hst _]]]]]]; exists e; auto. }
  apply build_result_shape in H.
  assert (Hids : converted_color_id r = option_map fst3 cr /\
                 converted_color_name r = option_map (fun t => snd (fst t)) cr /\
                 converted_size_id r = option_map fst3 sr /\
                 converted_size_name r = option_map (fun t => snd (fst t)) sr).
  { subst r cr sr; unfold check_threshold.
    destruct (color_attempt lower cc row db) as [[[? ?] ?]|];
      destruct (size_attempt lower cs row db) as [[[? ?] ?]|];
      destruct (Qle_bool th _); repeat split. }
  destruct Hids as [H1 [H2 [H3 H4]]]; repeat split; assumption.
Qed.

Lemma build_result_product_id (fault : nat -> bool) (lower : ustr -> ustr)
    (cc cs : bool) (th : Q) (row : Row) (db db' : DB) (r : ConversionResult) :
  build_result fault lower cc cs th row db = (Ok r, db') ->
  product_id r = df_product_id row.
Proof.
  intros H; apply build_result_shape in H; subst r; unfold check_threshold.
  destruct (color_attempt lower cc row db) as [[[? ?] ?]|];
    destruct (size_attempt lower cs row db) as [[[? ?] ?]|];
    destruct (Qle_bool th _); reflexivity.
Qed.

Lemma build_result_nofault (fault : nat -> bool) (lower : ustr -> ustr)
    (cc cs : bool) (th : Q) (row : Row) (db : DB) :
  (forall n, fault n = false) ->
  exists r db', build_result fault lower cc cs th row db = (Ok r, db').
Proof.
  intros Hf; unfold build_result, bind, ret.
  destruct (cc && isna (df_color_id row)).
  - rewrite convert_color_ok by (intros; apply Hf).
    destruct (cs && isna (df_size_id row)).
    + rewrite convert_size_ok by (intros; apply Hf); eauto.
    + eauto.
  - destruct (cs && isna (df_size_id row)).
    + rewrite convert_size_ok by (intros; apply Hf); eauto.
    + eauto.
Qed.

Lemma convert_loop_trace (fault : nat -> bool) (lower : ustr -> ustr)
    (cc cs : bool) (th : Q) (rows : list Row) :
  forall (acc : list ConversionResult) (db : DB),
  exists new hs,
    fst (convert_loop fault lower cc cs th rows acc db) = acc ++ new /\
    history_tbl (snd (convert_loop fault lower cc cs th rows acc db)) =
      history_tbl db ++ hs /\
    batch_trace fault lower cc cs th db rows new hs /\
    ((forall n, fault n = false) ->
     List.length new = List.length rows /\ List.length hs = List.length rows).
Proof.
  induction rows as [|row rows IH]; intros acc db; simpl.
  - exists [], []; rewrite !app_nil_r; repeat split; constructor.
  - destruct (build_result fault lower cc cs th row db) as [[r|ex] db1] eqn:Hb.
    + pose proof (build_result_history fault lower cc cs th row db) as Hbh.
      rewrite Hb in Hbh; simpl in Hbh.
      pose proof (build_result_product_id _ _ _ _ _ _ _ _ _ Hb) as Hpid.
      destruct (IH (acc ++ [r]) (snd (record_history fault r db1)))
        as [new [hs [Hres [Hh [Ht Hn]]]]].
      destruct (fault (ticks db1)) eqn:Hf.
      * assert (Hr : record_history fault r db1 = (Err DatabaseError, tick db1)).
        { unfold record_history, add_conversion_history, rethrow_as, bind, storage.
          rewrite Hf; reflexivity. }
        assert (Hg : history_tbl (snd (record_history fault r db1)) = history_tbl db1).
        { rewrite Hr; reflexivity. }
        exists (r :: new), hs.
        split; [rewrite Hres, <- app_assoc; reflexivity|].
        split; [rewrite Hh, Hg, Hbh; reflexivity|].
        split.
        -- eapply bt_result_only; eauto. rewrite Hr; reflexivity.
        -- intros Hall; rewrite Hall in Hf; discriminate.
      * destruct (record_history_appends fault r db1 Hf)
          as [e [He [Hp [_ [_ [Hs _]]]]]].
        exists (r :: new), (e :: hs).
        split; [rewrite Hres, <- app_assoc; reflexivity|].
        split; [rewrite Hh, He, Hbh, <- app_assoc; reflexivity|].
        split.
        -- eapply bt_both; eauto.
        -- intros Hall; destruct (Hn Hall) as [Hl1 Hl2]; simpl; split; lia.
    + destruct (IH acc db1) as [new [hs [Hres [Hh [Ht Hn]]]]].
      pose proof (build_result_history fault lower cc cs th row db) as Hbh.
      rewrite Hb in Hbh; simpl in Hbh.
      exists new, hs; split; [exact Hres|]; split; [rewrite Hh, Hbh; reflexivity|].
      split; [eapply bt_skipped; eauto|].
      intros Hf; exfalso.
      destruct (build_result_nofault fault lower cc cs th row db Hf) as [r' [db' Hr']].
      congruence.
Qed.

(** C1 (amended): [auto_convert_batch] returns normally on every batch (its
    result has no error case) and goes through every row in order: a row
    whose processing raises before [results.append] is logged and gets
    neither a result nor a history entry; a row whose history insert raises
    keeps its result without a history entry; every other row gets exactly one
    result and one history entry with its status.  When no storage call
    fails, all N rows get exactly one result and one history entry. *)
Theorem auto_convert_batch_skips_failures (fault : nat -> bool) (lower : ustr -> ustr)
    (cc cs : bool) (th : Q) (rows : list Row) (db : DB) :
  let (res, db') := auto_convert_batch fault lower cc cs th rows db in
  exists hs,
    history_tbl db' = history_tbl db ++ hs /\
    batch_trace fault lower cc cs th db rows res hs /\
    ((forall n, fault n = false) ->
     List.length res = List.length rows /\ List.length hs = List.length rows).
Proof.
  unfold auto_convert_batch.
  destruct (convert_loop_trace fault lower cc cs th rows [] db)
    as [new [hs [Hres [Hh [Ht Hn]]]]].
  destruct (convert_loop fault lower cc cs th rows [] db) as [res db'].
  simpl in Hres, Hh; subst res; exists hs; auto.
Qed.

Lemma has_key_in (t : Table) (k : ustr) :
  has_key t k = true <-> In k (map t_product_id t).
Proof.
  unfold has_key; rewrite existsb_exists, in_map_iff; split.
  - intros [r [Hr Heq]]; apply ustr_eqb_eq in Heq; exists r; auto.
  - intros [r [Heq Hr]]; exists r; split; [exact Hr|]; apply ustr_eqb_eq; exact Heq.
Qed.

Lemma set_on_conflict_key (v : ValueRow) (r : TargetRow) :
  t_product_id (set_on_conflict v r) = t_product_id r.
Proof. unfold set_on_conflict; destruct (ustr_eqb _ _); reflexivity. Qed.

Lemma map_key_set (v : ValueRow) (t : Table) :
  map t_product_id (map (set_on_conflict v) t) = map t_product_id t.
Proof.
  rewrite map_map; apply map_ext; intros; apply set_on_conflict_key.
Qed.

Lemma upsert_one_keys (t : Table) (v : ValueRow) :
  map t_product_id (upsert_one t v) =
    if has_key t (v_product_id v) then map t_product_id t
    else map t_product_id t ++ [v_product_id v].
Proof.
  unfold upsert_one; destruct (has_key t (v_product_id v)).
  - apply map_key_set.
  - rewrite map_app; reflexivity.
Qed.

Lemma upsert_one_nodup (t : Table) (v : ValueRow) :
  NoDup (map t_product_id t) -> NoDup (map t_product_id (upsert_one t v)).
Proof.
  intros H; rewrite upsert_one_keys.
  destruct (has_key t (v_product_id v)) eqn:E; [exact H|].
  apply NoDup_app; [exact H | constructor; [intros []|constructor] |].
  intros a Ha [Heq|[]]; subst a.
  apply has_key_in in Ha; congruence.
Qed.

Lemma upsert_all_nodup (vs : list ValueRow) :
  forall t, NoDup (map t_product_id t) -> NoDup (map t_product_id (upsert_all t vs)).
Proof.
  induction vs as [|v vs IH]; intros t H; simpl; [exact H|].
  apply IH, upsert_one_nodup, H.
Qed.

Lemma upsert_one_keeps_key (t : Table) (v : ValueRow) (k : ustr) :
  In k (map t_product_id t) -> In k (map t_product_id (upsert_one t v)).
Proof.
  intros H; rewrite upsert_one_keys; destruct (has_key _ _); [exact H|].
  apply in_or_app; left; exact H.
Qed.

Lemma upsert_one_adds_key (t : Table) (v : ValueRow) :
  In (v_product_id v) (map t_product_id (upsert_one t v)).
Proof.
  rewrite upsert_one_keys; destruct (has_key t (v_product_id v)) eqn:E.
  - apply has_key_in; exact E.
  - apply in_or_app; right; left; reflexivity.
Qed.

Lemma upsert_all_keeps_key (vs : list ValueRow) :
  forall t k, In k (map t_product_id t) -> In k (map t_product_id (upsert_all t vs)).
Proof.
  induction vs as [|v vs IH]; intros t k H; simpl; [exact H|].
  apply IH, upsert_one_keeps_key, H.
Qed.

(** After the statement every key of its VALUES rows has a row. *)
Lemma upsert_all_has_keys (vs : list ValueRow) :
  forall t v, In v vs -> In (v_product_id v) (map t_product_id (upsert_all t vs)).
Proof.
  induction vs as [|w vs IH]; intros t v Hv; [destruct Hv|]; simpl.
  destruct Hv as [<-|Hv].
  - apply upsert_all_keeps_key, upsert_one_adds_key.
  - apply IH, Hv.
Qed.

(** When every key is already present the statement only updates. *)
Lemma upsert_all_present (vs : list ValueRow) :
  forall t, (forall v, In v vs -> In (v_product_id v) (map t_product_id t)) ->
  upsert_all t vs = map (apply_all vs) t.
Proof.
  induction vs as [|v vs IH]; intros t H; simpl.
  - symmetry; apply map_id.
  - assert (Hk : has_key t (v_product_id v) = true)
      by (apply has_key_in, H; left; reflexivity).
    unfold upsert_one; rewrite Hk, IH.
    + rewrite map_map; reflexivity.
    + intros w Hw; rewrite map_key_set; apply H; right; exact Hw.
Qed.

Lemma apply_all_key (vs : list ValueRow) :
  forall r, t_product_id (apply_all vs r) = t_product_id r.
Proof.
  unfold apply_all; induction vs as [|v vs IH]; intros r; simpl; [reflexivity|].
  rewrite IH; apply set_on_conflict_key.
Qed.

Lemma apply_all_forget (vs : list ValueRow) :
  forall r, forget_updated (apply_all vs r) =
    match last_val vs (t_product_id r) with
    | Some v => (trow_id r, t_product_id r, v_product_name v, v_item_name v,
                 v_item_id v, t_created_at r)
    | None => forget_updated r
    end.
Proof.
  induction vs as [|v vs IH]; intros r; [reflexivity|].
  change (apply_all (v :: vs) r) with (apply_all vs (set_on_conflict v r)).
  rewrite IH, set_on_conflict_key; simpl.
  destruct (last_val vs (t_product_id r)) as [w|].
  - unfold set_on_conflict; destruct (ustr_eqb _ _); reflexivity.
  - unfold set_on_conflict.
    destruct (ustr_eqb (t_product_id r) (v_product_id v)) eqn:E1;
      destruct (ustr_eqb (v_product_id v) (t_product_id r)) eqn:E2;
      try reflexivity.
    + apply ustr_eqb_eq in E1; rewrite E1, (proj2 (ustr_eqb_eq _ _) eq_refl) in E2;
        discriminate.
    + apply ustr_eqb_eq in E2; rewrite E2, (proj2 (ustr_eqb_eq _ _) eq_refl) in E1;
        discriminate.
Qed.

Lemma upsert_one_fields (t : Table) (v : ValueRow) (r : TargetRow) :
  In r (upsert_one t v) -> t_product_id r = v_product_id v ->
  row_fields r = val_fields v.
Proof.
  unfold upsert_one; destruct (has_key t (v_product_id v)) eqn:Hkey.
  - intros Hr Hk; apply in_map_iff in Hr as [r0 [<- _]].
    rewrite set_on_conflict_key in Hk.
    unfold set_on_conflict; rewrite (proj2 (ustr_eqb_eq _ _) Hk); reflexivity.
  - intros Hr Hk; apply in_app_or in Hr as [Hr|[<-|[]]]; [|reflexivity].
    assert (E : has_key t (v_product_id v) = true)
      by (apply has_key_in, in_map_iff; exists r; auto).
    congruence.
Qed.

Lemma last_val_cons_none (v : ValueRow) (vs : list ValueRow) (k : ustr) :
  last_val (v :: vs) k = None -> last_val vs k = None /\ v_product_id v <> k.
Proof.
  simpl; destruct (last_val vs k); [discriminate|].
  destruct (ustr_eqb (v_product_id v) k) eqn:E; [discriminate|].
  intros _; split; [reflexivity|]; intros Heq; apply ustr_eqb_eq in Heq; congruence.
Qed.

(** A row whose key no VALUES row mentions comes from the old table. *)
Lemma upsert_all_untouched (vs : list ValueRow) :
  forall t r, In r (upsert_all t vs) -> last_val vs (t_product_id r) = None -> In r t.
Proof.
  induction vs as [|v vs IH]; intros t r Hr Hn; [exact Hr|].
  simpl in Hr; destruct (last_val_cons_none _ _ _ Hn) as [Hn' Hne].
  pose proof (IH _ _ Hr Hn') as H1; clear IH Hr.
  unfold upsert_one in H1; destruct (has_key t (v_product_id v)).
  - apply in_map_iff in H1 as [r0 [Hr0 Hin]].
    unfold set_on_conflict in Hr0.
    destruct (ustr_eqb (t_product_id r0) (v_product_id v)) eqn:E.
    + subst r; simpl in Hne; apply ustr_eqb_eq in E; congruence.
    + subst r0; exact Hin.
  - apply in_app_or in H1 as [H1|[<-|[]]]; [exact H1|].
    simpl in Hne; congruence.
Qed.

(** After the statement each row mentioned by a VALUES row carries the
    fields of the last such VALUES row. *)
Lemma upsert_all_last_fields (vs : list ValueRow) :
  forall t r v, In r (upsert_all t vs) -> last_val vs (t_product_id r) = Some v ->
  row_fields r = val_fields v.
Proof.
  induction vs as [|w vs IH]; intros t r v Hr Hl; [discriminate|].
  simpl in Hr, Hl.
  destruct (last_val vs (t_product_id r)) as [w'|] eqn:E.
  - inversion Hl; subst w'; exact (IH _ _ _ Hr E).
  - destruct (ustr_eqb (v_product_id w) (t_product_id r)) eqn:Ek; [|discriminate].
    inversion Hl; subst w; apply ustr_eqb_eq in Ek.
    apply (upsert_one_fields t); [exact (upsert_all_untouched vs _ _ Hr E) | congruence].
Qed.
Lemma build_color_values_same (now1 now2 : nat -> Z * Z) (ps : list Product) :
  forall i, same_values (build_color_values now1 i ps) (build_color_values now2 i ps).
Proof.
  unfold same_values; induction ps as [|p ps IH]; intros i; simpl; [reflexivity|].
  rewrite (IH (S i)); reflexivity.
Qed.

Lemma build_size_values_same (now1 now2 : nat -> Z * Z) (ps : list Product) :
  forall i, same_values (build_size_values now1 i ps) (build_size_values now2 i ps).
Proof.
  unfold same_values; induction ps as [|p ps IH]; intros i; simpl; [reflexivity|].
  rewrite (IH (S i)); reflexivity.
Qed.

Lemma same_values_last (vs1 : list ValueRow) :
  forall vs2 k, same_values vs1 vs2 ->
  option_map val_fields (last_val vs1 k) = option_map val_fields (last_val vs2 k).
Proof.
  unfold same_values; induction vs1 as [|v1 vs1 IH]; intros [|v2 vs2] k H;
    try discriminate; [reflexivity|].
  simpl in H.
  assert (Hk : v_product_id v1 = v_product_id v2) by congruence.
  assert (Hf : val_fields v1 = val_fields v2) by congruence.
  assert (Ht : map (fun v => (v_product_id v, val_fields v)) vs1 =
               map (fun v => (v_product_id v, val_fields v)) vs2) by congruence.
  clear H; simpl; specialize (IH vs2 k Ht).
  destruct (last_val vs1 k), (last_val vs2 k); simpl in IH |- *;
    try discriminate; [exact IH|].
  rewrite Hk; destruct (ustr_eqb (v_product_id v2) k); simpl; congruence.
Qed.

Lemma same_values_keys (vs1 vs2 : list ValueRow) :
  same_values vs1 vs2 -> map v_product_id vs1 = map v_product_id vs2.
Proof.
  unfold same_values; intros H.
  apply (f_equal (map fst)) in H; rewrite !map_map in H; exact H.
Qed.

(** The idempotence of one bulk upsert statement on a table. *)
Lemma upsert_all_twice (t : Table) (vs1 vs2 : list ValueRow) :
  same_values vs1 vs2 ->
  map t_product_id (upsert_all (upsert_all t vs1) vs2) =
    map t_product_id (upsert_all t vs1) /\
  map forget_updated (upsert_all (upsert_all t vs1) vs2) =
    map forget_updated (upsert_all t vs1).
Proof.
  intros Hs; set (t1 := upsert_all t vs1).
  assert (Hpres : forall v, In v vs2 -> In (v_product_id v) (map t_product_id t1)).
  { intros v Hv.
    assert (Hk : In (v_product_id v) (map v_product_id vs1))
      by (rewrite (same_values_keys _ _ Hs); apply in_map; exact Hv).
    apply in_map_iff in Hk as [v1 [Heq Hv1]]; rewrite <- Heq.
    apply upsert_all_has_keys; exact Hv1. }
  rewrite (upsert_all_present vs2 t1 Hpres), !map_map; split.
  - apply map_ext; intros; apply apply_all_key.
  - apply map_ext_in; intros r Hr; rewrite apply_all_forget.
    pose proof (same_values_last vs1 vs2 (t_product_id r) Hs) as Hl.
    destruct (last_val vs2 (t_product_id r)) as [w2|] eqn:E2; [|reflexivity].
    destruct (last_val vs1 (t_product_id r)) as [w1|] eqn:E1; [|discriminate].
    simpl in Hl; inversion Hl as [Hw].
    pose proof (upsert_all_last_fields vs1 t r w1 Hr E1) as Hf.
    unfold row_fields, val_fields in Hf; rewrite Hw in Hf; inversion Hf.
    unfold forget_updated; congruence.
Qed.

Lemma build_color_values_keys (now : nat -> Z * Z) (ps : list Product) :
  forall i, map v_product_id (build_color_values now i ps) = map p_product_id ps.
Proof.
  induction ps as [|p ps IH]; intros i; simpl; [reflexivity|]; rewrite IH; reflexivity.
Qed.

Lemma write_colors_twice (now1 now2 : nat -> Z * Z) (ps : list Product) (t : Table) :
  NoDup (map t_product_id t) ->
  NoDup (map t_product_id (write_colors now1 ps t)) /\
  (forall p, In p ps -> p_color_id p <> None ->
             In (p_product_id p) (map t_product_id (write_colors now1 ps t))) /\
  map t_product_id (write_colors now2 ps (write_colors now1 ps t)) =
    map t_product_id (write_colors now1 ps t) /\
  map forget_updated (write_colors now2 ps (write_colors now1 ps t)) =
    map forget_updated (write_colors now1 ps t).
Proof.
  intros Hnd; unfold write_colors.
  assert (Hin : forall p, In p ps -> p_color_id p <> None -> In p (color_products ps)).
  { intros p Hp Hc; unfold color_products; apply filter_In; split; [exact Hp|].
    destruct (p_color_id p); [reflexivity | congruence]. }
  destruct (color_products ps) as [|c cs] eqn:E.
  - repeat split; [exact Hnd | intros p Hp Hc; destruct (Hin p Hp Hc)].
  - split; [apply upsert_all_nodup, Hnd|]; split.
    + intros p Hp Hc.
      assert (Hk : In (p_product_id p) (map v_product_id (build_color_values now1 0 (c :: cs))))
        by (rewrite build_color_values_keys; apply in_map, Hin; assumption).
      apply in_map_iff in Hk as [v [Heq Hv]]; rewrite <- Heq.
      apply upsert_all_has_keys; exact Hv.
    + apply upsert_all_twice, build_color_values_same.
Qed.

Lemma insert_tm9030color_table (fault : nat -> bool) (ps : list Product) (db : DB) :
  (forall n, fault n = false) ->
  tm9030color (snd (insert_tm9030color fault ps db)) =
    write_colors (call_now (tick db)) ps (tm9030color db).
Proof.
  intros Hf; unfold insert_tm9030color, rethrow_as, storage, ret.
  destruct (color_products ps) as [|c cs] eqn:E.
  - unfold write_colors; rewrite E; reflexivity.
  - rewrite Hf; reflexivity.
Qed.

(** C7: running the color writer twice on the same products keeps one row
    per [product_id] (the table's UNIQUE key): the second run inserts nothing
    and leaves every column but [updated_at] ([id], [product_id],
    [product_name], [color_name], [color_id], [created_at]) as the first run
    left it; on a conflict the statement overwrites [product_name],
    [color_name], [color_id] and [updated_at] and keeps [id] and
    [created_at]. *)
Theorem write_colors_idempotent (fault : nat -> bool) (ps : list Product) (db : DB) :
  (forall n, fault n = false) ->
  NoDup (map t_product_id (tm9030color db)) ->
  let db1 := snd (insert_tm9030color fault ps db) in
  let db2 := snd (insert_tm9030color fault ps db1) in
  NoDup (map t_product_id (tm9030color db1)) /\
  NoDup (map t_product_id (tm9030color db2)) /\
  (forall p, In p ps -> p_color_id p <> None ->
             In (p_product_id p) (map t_product_id (tm9030color db1))) /\
  map t_product_id (tm9030color db2) = map t_product_id (tm9030color db1) /\
  map forget_updated (tm9030color db2) = map forget_updated (tm9030color db1) /\
  (forall (t : Table) (v : ValueRow) (r : TargetRow),
     In r t -> t_product_id r = v_product_id v ->
     In (mkTRow (trow_id r) (t_product_id r) (v_product_name v) (v_item_name v)
                (v_item_id v) (t_created_at r) (v_updated_at v)) (upsert_one t v)).
Proof.
  intros Hf Hnd db1 db2; subst db1 db2.
  rewrite (insert_tm9030color_table fault ps (snd (insert_tm9030color fault ps db)) Hf).
  rewrite (insert_tm9030color_table fault ps db Hf).
  destruct (write_colors_twice (call_now (tick db))
              (call_now (tick (snd (insert_tm9030color fault ps db)))) ps
              (tm9030color db) Hnd) as [H1 [H2 [H3 H4]]].
  split; [exact H1|]; split; [rewrite H3; exact H1|]; split; [exact H2|].
  split; [exact H3|]; split; [exact H4|].
  intros t v r Hr Hk; unfold upsert_one.
  assert (E : has_key t (v_product_id v) = true)
    by (apply has_key_in, in_map_iff; exists r; auto).
  rewrite E; apply in_map_iff; exists r; split; [|exact Hr].
  unfold set_on_conflict; rewrite (proj2 (ustr_eqb_eq _ _) Hk); reflexivity.
Qed.

Lemma insert_tm9030color_ticks (fault : nat -> bool) (ps : list Product) (db : DB) :
  (ticks db <= ticks (snd (insert_tm9030color fault ps db)))%nat.
Proof.
  unfold insert_tm9030color, rethrow_as, storage, ret.
  destruct (color_products ps); [simpl; lia|].
  destruct (fault (ticks db)); simpl; lia.
Qed.

Lemma insert_tm9035size_ticks (fault : nat -> bool) (ps : list Product) (db : DB) :
  (ticks db <= ticks (snd (insert_tm9035size fault ps db)))%nat.
Proof.
  unfold insert_tm9035size, rethrow_as, storage, ret.
  destruct (size_products ps); [simpl; lia|].
  destruct (fault (ticks db)); simpl; lia.
Qed.

(** C8: [batch_insert] runs the color writer (when enabled) and then the
    size writer (when enabled) on the state the color writer left, whether
    the color writer succeeded or raised; each writer's result or its error
    text is recorded in one aggregate result with [started_at],
    [completed_at] and the list of errors, and [success] is false exactly when
    that list is non-empty. *)
Theorem batch_insert_independent (fault : nat -> bool) (ps : list Product)
    (insert_colors insert_sizes : bool) (db : DB) :
  let c := insert_tm9030color fault ps db in
  let db1 := if insert_colors then snd c else db in
  let s := insert_tm9035size fault ps db1 in
  let db2 := if insert_sizes then snd s else db1 in
  let (b, db') := batch_insert fault ps insert_colors insert_sizes db in
  db' = db2 /\
  color_result b =
    (if insert_colors then match fst c with Ok r => Some r | Err _ => None end
     else None) /\
  size_result b =
    (if insert_sizes then match fst s with Ok r => Some r | Err _ => None end
     else None) /\
  errors b =
    (if insert_colors then
       match fst c with Ok _ => [] | Err e => [color_error_prefix ++ str_exn e] end
     else []) ++
    (if insert_sizes then
       match fst s with Ok _ => [] | Err e => [size_error_prefix ++ str_exn e] end
     else []) /\
  (b_success b = false <-> errors b <> []) /\
  started_at b = db_now db /\
  completed_at b = Some (db_now db') /\
  started_at b <= db_now db'.
Proof.
  intros c db1 s db2; subst c db1 s db2.
  unfold batch_insert, run_writer.
  destruct insert_colors;
    [destruct (insert_tm9030color fault ps db) as [[cr|ce] dbc] eqn:Hc|];
    cbn [fst snd];
    (destruct insert_sizes;
      [match goal with
       | |- context [insert_tm9035size fault ps ?d] =>
           pose proof (insert_tm9035size_ticks fault ps d);
           destruct (insert_tm9035size fault ps d) as [[sr|se] dbs] eqn:Hs
       end|]);
    try (pose proof (insert_tm9030color_ticks fault ps db) as Ht; rewrite Hc in Ht);
    simpl in *;
    (split; [reflexivity|]); (split; [reflexivity|]); (split; [reflexivity|]);
    (split; [reflexivity|]);
    (split; [split; [discriminate || (intros _; discriminate) | congruence] |]);
    (split; [reflexivity|]); (split; [reflexivity|]); unfold db_now; lia.
Qed.

Lemma insert_by_name_in (x : ConversionRule) (l : list ConversionRule) (r : ConversionRule) :
  In r (insert_by_name x l) -> r = x \/ In r l.
Proof.
  induction l as [|y l IH]; simpl.
  - intros [<-|[]]; left; reflexivity.
  - destruct (ustr_ltb (source_name x) (source_name y)); simpl.
    + intros [<-|H]; [left; reflexivity | right; exact H].
    + intros [<-|H]; [right; left; reflexivity|].
      destruct (IH H) as [H'|H']; [left; exact H' | right; right; exact H'].
Qed.

Lemma order_by_source_name_in (l : list ConversionRule) :
  forall acc r, In r (fold_left (fun acc r => insert_by_name r acc) l acc) ->
  In r acc \/ In r l.
Proof.
  induction l as [|x l IH]; intros acc r H; simpl in *; [left; exact H|].
  destruct (IH _ _ H) as [H1|H1]; [|right; right; exact H1].
  destruct (insert_by_name_in _ _ _ H1) as [<-|H2];
    [right; left; reflexivity | left; exact H2].
Qed.

Lemma select_active_rules_in (tbl : list ConversionRule) (r : ConversionRule) :
  In r (select_active_rules tbl) -> In r tbl.
Proof.
  unfold select_active_rules, order_by_source_name; intros H.
  destruct (order_by_source_name_in _ [] r H) as [[]|H1].
  apply filter_In in H1; apply H1.
Qed.

Lemma resolve_bounded (lower : ustr -> ustr) (name : option ustr)
    (rules : list ConversionRule) (t : Z * ustr * Q) :
  (forall r, In r rules -> conf_in_unit r) ->
  resolve lower name rules = Some t -> (0 <= conf3 t /\ conf3 t <= 1)%Q.
Proof.
  intros Hb; unfold resolve.
  assert (He : exact_match lower (match name with Some n => n | None => [] end) rules = Some t ->
               (0 <= conf3 t /\ conf3 t <= 1)%Q).
  { revert Hb; induction rules as [|r rs IH]; simpl; [discriminate|]; intros Hb.
    destruct (ustr_eqb _ _).
    - intros H; inversion H; subst; apply (Hb r); left; reflexivity.
    - intros H; apply IH; [intros r' Hr'; apply Hb; right; exact Hr' | exact H]. }
  assert (Hp : partial_match lower (match name with Some n => n | None => [] end) rules = Some t ->
               (0 <= conf3 t /\ conf3 t <= 1)%Q).
  { clear He; revert Hb; induction rules as [|r rs IH]; simpl; [discriminate|]; intros Hb.
    destruct (_ || _).
    - intros H; inversion H; subst; unfold conf3; simpl.
      destruct (Hb r (or_introl eq_refl)) as [H0 H1]; split; lra.
    - intros H; apply IH; [intros r' Hr'; apply Hb; right; exact Hr' | exact H]. }
  destruct name as [[|c s]|]; try discriminate.
  destruct (exact_match lower (c :: s) rules) eqn:E.
  - intros H; inversion H; subst; apply He; reflexivity.
  - apply Hp.
Qed.

(** C9 (amended): [add_color_rule] and [add_size_rule] store the supplied
    confidence as given, with no range check (the validator is not called on
    this path), so a rule outside [0,1] is accepted; the Matcher returns the
    stored confidence or 0.8 times it, so when every stored rule has its
    confidence in [0,1] every confidence returned by [convert_color] /
    [convert_size] is in [0,1]. *)
Theorem rule_confidence_unchecked_but_preserved (fault : nat -> bool) (lower : ustr -> ustr) :
  (forall (source : ustr) (tid : Z) (tname : ustr) (conf : Q) (db : DB),
     fault (ticks db) = false ->
     exists r, color_rules_tbl (snd (add_color_rule fault source tid tname conf db)) =
                 color_rules_tbl db ++ [r] /\
               source_name r = source /\ target_id r = tid /\
               confidence r = conf /\ is_active r = true) /\
  (forall (source : ustr) (tid : Z) (tname : ustr) (conf : Q) (db : DB),
     fault (ticks db) = false ->
     exists r, size_rules_tbl (snd (add_size_rule fault source tid tname conf db)) =
                 size_rules_tbl db ++ [r] /\
               source_name r = source /\ target_id r = tid /\
               confidence r = conf /\ is_active r = true) /\
  (forall (name : option ustr) (db db' : DB) (t : Z * ustr * Q),
     (forall r, In r (color_rules_tbl db) -> conf_in_unit r) ->
     convert_color fault lower name db = (Ok (Some t), db') ->
     (0 <= conf3 t /\ conf3 t <= 1)%Q) /\
  (forall (name : option ustr) (db db' : DB) (t : Z * ustr * Q),
     (forall r, In r (size_rules_tbl db) -> conf_in_unit r) ->
     convert_size fault lower name db = (Ok (Some t), db') ->
     (0 <= conf3 t /\ conf3 t <= 1)%Q).
Proof.
  split; [|split; [|split]].
  - intros source tid tname conf db Hf.
    unfold add_color_rule, rethrow_as, bind, storage; rewrite Hf; simpl.
    destruct (fault (S (ticks db))); simpl; eexists; repeat split.
  - intros source tid tname conf db Hf.
    unfold add_size_rule, rethrow_as, bind, storage; rewrite Hf; simpl.
    destruct (fault (S (ticks db))); simpl; eexists; repeat split.
  - intros name db db' t Hb H.
    destruct (convert_color_result _ _ _ _ _ _ H) as [Ht _].
    apply (resolve_bounded lower name (select_active_rules (color_rules_tbl db)));
      [intros r Hr; apply Hb, select_active_rules_in, Hr | symmetry; exact Ht].
  - intros name db db' t Hb H.
    pose proof (convert_size_result _ _ _ _ _ _ H) as Ht.
    apply (resolve_bounded lower name (select_active_rules (size_rules_tbl db)));
      [intros r Hr; apply Hb, select_active_rules_in, Hr | symmetry; exact Ht].
Qed.

(** * Witnesses and counterexamples *)

(** C2 at a concrete store: the color rules [red] and [Red] are both exact
    matches of [RED]; [ORDER BY source_name] puts [Red] first and it wins. *)
Lemma convert_exact_first_wins_witness :
  fst (convert_color no_fault ascii_lower (Some (u "RED")) sample_db) =
    Ok (Some (1, u "Red", 1%Q)).
Proof.
  destruct (convert_exact_first_wins no_fault ascii_lower sample_db (u "RED")
              [] [rule_red_dup] rule_red eq_refl ltac:(discriminate)
              (Forall_nil _) eq_refl) as [_ [H _]].
  apply H. vm_compute. reflexivity.
Defined.

(** C3 at a concrete rule list: [wine] only occurs inside [Wine Red]. *)
Lemma convert_substring_then_none_witness :
  resolve ascii_lower (Some (u "wine")) [rule_red; rule_winered] =
    Some (3, u "Wine", ((9 # 10) * (8 # 10))%Q) /\
  resolve ascii_lower (Some (u "Blue")) [rule_red; rule_winered] = None.
Proof.
  split.
  - apply (proj1 (convert_substring_then_none no_fault ascii_lower)
             (u "wine") [rule_red] [] rule_winered).
    + discriminate.
    + repeat constructor; intro H; vm_compute in H; discriminate H.
    + repeat constructor; intros [H | H]; vm_compute in H; discriminate H.
    + left. vm_compute. reflexivity.
  - refine (proj1 (proj2 (convert_substring_then_none no_fault ascii_lower)
             (u "Blue") [rule_red; rule_winered] empty_db _ _)).
    + repeat constructor; intro H; vm_compute in H; discriminate H.
    + repeat constructor; intros [H | H]; vm_compute in H; discriminate H.
Defined.

(** C5 at [Blue-L]: [/] is absent, [-] is the first separator present. *)
Lemma parse_composite_value_spec_witness :
  _parse_composite_value (u "Blue-L") = (Some (u "Blue"), Some (u "L")).
Proof.
  rewrite (proj1 parse_composite_value_spec (u "Blue-L") [47] [95; 32] 45
             (u "Blue") (u "L")).
  - vm_compute. reflexivity.
  - reflexivity.
  - repeat constructor; intro H; apply existsb_eqb_in in H; vm_compute in H;
      discriminate H.
  - reflexivity.
  - intro H; apply existsb_eqb_in in H; vm_compute in H; discriminate H.
Defined.

(** C6 at [red/M]: both parts resolve with confidence 1, their average. *)
Lemma convert_composite_confidence_witness :
  fst (convert_composite no_fault ascii_lower (Some (u "red/M")) sample_db) =
    Ok (Some 1, Some 20, ((1 + 1) / 2)%Q).
Proof.
  rewrite (convert_composite_confidence no_fault ascii_lower sample_db
             (Some (u "red/M")) (fun _ => eq_refl)).
  vm_compute. reflexivity.
Defined.

(** C4 at a concrete row: confidence 1 against threshold 0.8 is a success. *)
Lemma batch_status_threshold_witness :
  match build_result no_fault ascii_lower true true (8 # 10) row_red sample_db with
  | (Ok r, _) => status r = s_success
  | (Err _, _) => False
  end.
Proof.
  destruct (build_result no_fault ascii_lower true true (8 # 10) row_red sample_db)
    as [[r | e] db'] eqn:E.
  - destruct (batch_status_threshold no_fault ascii_lower true true (8 # 10)
                row_red sample_db db' r E) as [Hc [Hs _]].
    apply Hs. rewrite Hc. vm_compute. discriminate.
  - vm_compute in E. discriminate E.
Defined.

(** C10 at a concrete row: with threshold 2 the row fails but keeps its
    color id 1 and size id 20. *)
Lemma failed_keeps_resolved_ids_witness :
  match build_result no_fault ascii_lower true true 2 row_red sample_db with
  | (Ok r, _) => converted_color_id r = Some 1 /\ converted_size_id r = Some 20
  | (Err _, _) => False
  end.
Proof.
  destruct (build_result no_fault ascii_lower true true 2 row_red sample_db)
    as [[r | e] db'] eqn:E.
  - destruct (failed_keeps_resolved_ids no_fault ascii_lower true true 2
                row_red sample_db db' r E) as [Hc [_ [Hs _]]].
    rewrite Hc, Hs. vm_compute. split; reflexivity.
  - vm_compute in E. discriminate E.
Defined.

(** C1 without storage failures: two rows, two results. *)
Lemma auto_convert_batch_skips_failures_witness :
  let (res, _) := auto_convert_batch no_fault ascii_lower true true (8 # 10)
                    [row_red; row_red_only] sample_db in
  List.length res = 2%nat.
Proof.
  pose proof (auto_convert_batch_skips_failures no_fault ascii_lower true true
                (8 # 10) [row_red; row_red_only] sample_db) as H.
  destruct (auto_convert_batch no_fault ascii_lower true true (8 # 10)
              [row_red; row_red_only] sample_db) as [res db'].
  destruct H as [hs [_ [_ Hn]]].
  exact (proj1 (Hn (fun _ => eq_refl))).
Defined.

(** C7 on products with a repeated [product_id]: one row per key, and the
    same keys after a second call. *)
Lemma write_colors_idempotent_witness :
  let db1 := snd (insert_tm9030color no_fault sample_products empty_db) in
  let db2 := snd (insert_tm9030color no_fault sample_products db1) in
  NoDup (map t_product_id (tm9030color db2)) /\
  map t_product_id (tm9030color db2) = map t_product_id (tm9030color db1).
Proof.
  destruct (write_colors_idempotent no_fault sample_products empty_db
              (fun _ => eq_refl) (NoDup_nil _)) as [_ [H2 [_ [Hk _]]]].
  split; [exact H2 | exact Hk].
Defined.

(** C9, amended part: resolving against rules in [0,1] stays in [0,1]. *)
Lemma rule_confidence_unchecked_but_preserved_witness :
  match convert_color no_fault ascii_lower (Some (u "red")) sample_db with
  | (Ok (Some t), _) => (0 <= conf3 t /\ conf3 t <= 1)%Q
  | _ => False
  end.
Proof.
  destruct (convert_color no_fault ascii_lower (Some (u "red")) sample_db)
    as [[[t |] | e] db'] eqn:E.
  - apply (proj1 (proj2 (proj2 (rule_confidence_unchecked_but_preserved
                                  no_fault ascii_lower))) (Some (u "red"))
             sample_db db' t).
    + intros r [<- | [<- | []]]; unfold conf_in_unit; simpl; split;
        unfold Qle; simpl; lia.
    + exact E.
  - vm_compute in E. discriminate E.
  - vm_compute in E. discriminate E.
Defined.

(** C1 counterexample: when the first storage call of the batch (the color
    rule lookup of the only row) raises, the row is logged and skipped: the
    batch of one record yields no result and no history entry. *)
Lemma batch_failing_record_gets_no_entry :
  let (res, db') := auto_convert_batch first_call_fails ascii_lower true true
                      (8 # 10) [row_red] sample_db in
  res = [] /\ history_tbl db' = [].
Proof. vm_compute. split; reflexivity. Qed.

(** C4 counterexample: a color rule stored with confidence -0.5 resolves
    with confidence -0.5, but the result's confidence is [max(0.0, -0.5)],
    i.e. 0, not the maximum of the resolved confidences. *)
Lemma negative_confidence_clamped :
  color_attempt ascii_lower true row_red_only negative_db =
    Some (1, u "Red", (-(1 # 2))%Q) /\
  match build_result no_fault ascii_lower true true (8 # 10) row_red_only
          negative_db with
  | (Ok r, _) => res_confidence r = 0%Q
  | (Err _, _) => False
  end.
Proof. vm_compute. split; reflexivity. Qed.

(** C9 counterexample: [add_color_rule] stores a rule with confidence 1.5,
    and the Matcher then returns confidence 1.5, outside [0,1]. *)
Lemma add_rule_out_of_range_accepted :
  let (res, db') := add_color_rule no_fault (u "Red") 1 (u "Red") (3 # 2) empty_db in
  res = Ok 1 /\
  fst (convert_color no_fault ascii_lower (Some (u "Red")) db') =
    Ok (Some (1, u "Red", (3 # 2)%Q)) /\
  ~ ((3 # 2) <= 1)%Q.
Proof.
  vm_compute. split; [reflexivity | split; [reflexivity |]].
  intro H. apply H. reflexivity.
Qed.

(** * Rule maintenance *)

Lemma filter_is_active_deactivate (rid now : Z) (tbl : list ConversionRule) :
  filter is_active (map (deactivate rid now) tbl) =
  filter (fun r => is_active r && negb (Z.eqb (rule_id r) rid)) tbl.
Proof.
  induction tbl as [| r tbl IH]; [reflexivity |].
  simpl. destruct (Z.eqb (rule_id r) rid) eqn:E.
  - assert (Hd : is_active (deactivate rid now r) = false)
      by (unfold deactivate; rewrite E; reflexivity).
    rewrite Hd, IH. destruct (is_active r); reflexivity.
  - assert (Hd : deactivate rid now r = r) by (unfold deactivate; rewrite E; reflexivity).
    rewrite Hd. destruct (is_active r); simpl; rewrite IH; reflexivity.
Qed.

Lemma filter_filter_andb {A} (p q : A -> bool) (l : list A) :
  filter p (filter q l) = filter (fun x => q x && p x) l.
Proof.
  induction l as [| x l IH]; [reflexivity |].
  simpl. destruct (q x); simpl; [destruct (p x); simpl; rewrite IH |]; auto.
Qed.

Lemma map_rule_key_deactivate (rid now : Z) (tbl : list ConversionRule) :
  map rule_key (map (deactivate rid now) tbl) = map rule_key tbl.
Proof.
  induction tbl as [| r tbl IH]; [reflexivity |].
  simpl. rewrite IH. unfold deactivate. destruct (Z.eqb (rule_id r) rid); reflexivity.
Qed.

Lemma get_set_rules (db : DB) (t t' : RuleTable) (tbl : list ConversionRule) :
  get_rules (set_rules db t tbl) t' = if (match t, t' with
                                       | ColorRules, ColorRules | SizeRules, SizeRules => true
                                       | _, _ => false end)
                                    then tbl else get_rules db t'.
Proof. destruct t, t'; reflexivity. Qed.

Lemma set_rules_same_except (db : DB) (t : RuleTable) (tbl : list ConversionRule) :
  same_except t db (set_rules db t tbl).
Proof. destruct t; repeat split. Qed.

Lemma same_except_tick (t : RuleTable) (db db' : DB) :
  same_except t db db' -> same_except t db (tick db').
Proof. destruct t; unfold same_except; simpl; auto. Qed.

Lemma same_except_refl (t : RuleTable) (db : DB) : same_except t db db.
Proof. repeat split. Qed.

Lemma same_except_trans (t : RuleTable) (db1 db2 db3 : DB) :
  same_except t db1 db2 -> same_except t db2 db3 -> same_except t db1 db3.
Proof.
  unfold same_except; intros (A1 & B1 & C1 & D1) (A2 & B2 & C2 & D2).
  repeat split; congruence.
Qed.

(** [delete_rule] on a rule table ([rule_type] is [color] or [size] up to
    ASCII case): the rules listed as active afterwards are exactly the active
    rules whose id is not [rule_id], in the same order; no row is removed or
    has its name, target or confidence changed; the Matcher then runs on the
    active rules other than [rule_id]; the other tables are untouched. *)
Theorem delete_rule_soft_deletes (fault : nat -> bool) (exec_raw : ustr -> M unit)
    (rid : Z) (rule_type : ustr) (t : RuleTable) (db : DB) :
  forallb is_ident_char rule_type = true ->
  rule_table_of rule_type = Some t ->
  fault (ticks db) = false ->
  let (res, db') := delete_rule fault exec_raw rid rule_type db in
  res = Ok tt /\
  filter is_active (get_rules db' t) =
    filter (fun r => is_active r && negb (Z.eqb (rule_id r) rid)) (get_rules db t) /\
  select_active_rules (get_rules db' t) =
    select_active_rules (filter (fun r => negb (Z.eqb (rule_id r) rid)) (get_rules db t)) /\
  map rule_key (get_rules db' t) = map rule_key (get_rules db t) /\
  same_except t db db'.
Proof.
  intros Hid Ht Hf.
  unfold delete_rule, rethrow_as, storage. rewrite Hid, Ht, Hf.
  assert (Hg : get_rules (set_rules (tick db) t
                 (map (deactivate rid (db_now (tick db))) (get_rules (tick db) t))) t =
               map (deactivate rid (db_now (tick db))) (get_rules db t))
    by (destruct t; reflexivity).
  split; [reflexivity |]. rewrite Hg.
  split; [apply filter_is_active_deactivate |].
  split.
  { unfold select_active_rules. rewrite filter_is_active_deactivate, filter_filter_andb.
    f_equal. apply filter_ext. intros r. apply andb_comm. }
  split; [apply map_rule_key_deactivate |].
  destruct t; repeat split.
Qed.

(** [delete_rule] and [update_rule] on a [rule_type] made only of ASCII
    letters, digits and underscores that is not [color] / [size] (in any
    case) raise [DatabaseError] and change no table: the statement names a
    table that does not exist.  Other rule types are pasted into the SQL
    text unchecked, and nothing is claimed for them. *)
Theorem rule_admin_unknown_type (fault : nat -> bool) (exec_raw : ustr -> M unit)
    (rid : Z) (rule_type : ustr) (kwargs : list Kwarg) (db : DB) :
  forallb is_ident_char rule_type = true ->
  rule_table_of rule_type = None ->
  delete_rule fault exec_raw rid rule_type db = (Err DatabaseError, tick db) /\
  (existsb kw_allowed kwargs = true ->
   update_rule fault exec_raw rid rule_type kwargs db = (Err DatabaseError, tick db)).
Proof.
  intros Hid Ht. split.
  - unfold delete_rule, rethrow_as. rewrite Hid, Ht. reflexivity.
  - intros Hk. unfold update_rule, rethrow_as.
    destruct (filter kw_allowed kwargs) eqn:E.
    + exfalso. apply existsb_exists in Hk as (k & Hin & Hk').
      assert (In k (filter kw_allowed kwargs)) by (apply filter_In; auto).
      rewrite E in H. exact H.
    + rewrite Hid, Ht. reflexivity.
Qed.

(** [update_rule] with no accepted keyword ([target_id], [target_name],
    [confidence], [is_active]) raises [DatabaseError] (its
    [ValidationError], re-raised) before any storage call: the database is
    left exactly as it was. *)
Theorem update_rule_no_fields (fault : nat -> bool) (exec_raw : ustr -> M unit)
    (rid : Z) (rule_type : ustr) (kwargs : list Kwarg) (db : DB) :
  existsb kw_allowed kwargs = false ->
  update_rule fault exec_raw rid rule_type kwargs db = (Err DatabaseError, db).
Proof.
  intros Hk. unfold update_rule, rethrow_as.
  destruct (filter kw_allowed kwargs) as [| k ks] eqn:E; [reflexivity |].
  exfalso.
  assert (Hin : In k (filter kw_allowed kwargs)) by (rewrite E; left; reflexivity).
  apply filter_In in Hin as [Hin Hk'].
  assert (existsb kw_allowed kwargs = true) by (apply existsb_exists; eauto).
  congruence.
Qed.

(** [update_rule] with a [target_id] or [target_name] keyword, on a
    [rule_type] made only of ASCII letters, digits and underscores, raises
    [DatabaseError] and changes no row: the SET clause names a column the
    rule tables do not have, so such a call never changes a rule's target.
    Other rule types are pasted into the SQL text unchecked, and nothing is
    claimed for them. *)
Theorem update_rule_target_never_written (fault : nat -> bool)
    (exec_raw : ustr -> M unit) (rid : Z) (rule_type : ustr) (kwargs : list Kwarg)
    (db : DB) :
  forallb is_ident_char rule_type = true ->
  ((exists v, In (KwTargetId v) kwargs) \/ (exists v, In (KwTargetName v) kwargs)) ->
  update_rule fault exec_raw rid rule_type kwargs db = (Err DatabaseError, tick db).
Proof.
  intros Hid Hk.
  assert (Hbad : exists k, In k (filter kw_allowed kwargs) /\ kw_column_exists k = false).
  { destruct Hk as [[v H] | [v H]]; [exists (KwTargetId v) | exists (KwTargetName v)];
      (split; [apply filter_In; auto | reflexivity]). }
  destruct Hbad as (k & Hin & Hk').
  unfold update_rule, rethrow_as.
  destruct (filter kw_allowed kwargs) as [| k0 ks] eqn:E; [destruct Hin |].
  rewrite Hid.
  destruct (rule_table_of rule_type); [| reflexivity].
  assert (Hf : forallb kw_column_exists (k0 :: ks) = false).
  { apply not_true_iff_false. intros Hall. rewrite forallb_forall in Hall.
    rewrite (Hall k Hin) in Hk'. discriminate. }
  rewrite Hf. reflexivity.
Qed.

Lemma fold_apply_kwarg_fixed (fields : list Kwarg) (r : ConversionRule) :
  let r' := fold_left apply_kwarg fields r in
  rule_id r' = rule_id r /\ source_name r' = source_name r /\
  target_id r' = target_id r /\ target_name r' = target_name r /\
  rule_created_at r' = rule_created_at r /\
  confidence r' = last_confidence fields (confidence r) /\
  is_active r' = last_active fields (is_active r).
Proof.
  revert r. unfold last_confidence, last_active.
  induction fields as [| k fields IH]; intros r; [repeat split |].
  simpl. destruct (IH (apply_kwarg r k)) as (A & B & C & D & E & F & G).
  destruct k; simpl in *; repeat split; congruence.
Qed.

(** [update_rule] on a rule table with accepted keywords that are all
    [confidence] / [is_active]: with no storage failure it returns normally;
    rows with another id are unchanged; the row(s) with id [rule_id] keep
    their id, source name, target and [created_at], take the last
    [confidence] and [is_active] given (or keep theirs) and the call's time as
    [updated_at]; the other tables are untouched. *)
Theorem update_rule_sets_fields (fault : nat -> bool) (exec_raw : ustr -> M unit)
    (rid : Z) (rule_type : ustr) (t : RuleTable) (kwargs : list Kwarg) (db : DB) :
  forallb is_ident_char rule_type = true ->
  rule_table_of rule_type = Some t ->
  existsb kw_allowed kwargs = true ->
  forallb (fun k => negb (kw_allowed k) || kw_column_exists k) kwargs = true ->
  fault (ticks db) = false ->
  let fields := filter kw_allowed kwargs in
  let (res, db') := update_rule fault exec_raw rid rule_type kwargs db in
  res = Ok tt /\ same_except t db db' /\
  Forall2 (fun r r' =>
             (rule_id r <> rid -> r' = r) /\
             (rule_id r = rid ->
              rule_id r' = rule_id r /\ source_name r' = source_name r /\
              target_id r' = target_id r /\ target_name r' = target_name r /\
              rule_created_at r' = rule_created_at r /\
              confidence r' = last_confidence fields (confidence r) /\
              is_active r' = last_active fields (is_active r) /\
              rule_updated_at r' = db_now (tick db)))
          (get_rules db t) (get_rules db' t).
Proof.
  intros Hid Ht Hk Hcols Hf. cbv zeta.
  assert (Hcols' : forallb kw_column_exists (filter kw_allowed kwargs) = true).
  { apply forallb_forall. intros k Hin. apply filter_In in Hin as [Hin Ha].
    rewrite forallb_forall in Hcols. specialize (Hcols k Hin).
    rewrite Ha in Hcols. exact Hcols. }
  unfold update_rule, rethrow_as.
  destruct (filter kw_allowed kwargs) as [| k0 ks] eqn:E.
  { exfalso. apply existsb_exists in Hk as (k & Hin & Hk').
    assert (Hin' : In k (filter kw_allowed kwargs)) by (apply filter_In; auto).
    rewrite E in Hin'. exact Hin'. }
  rewrite Hid, Ht, Hcols'. unfold storage. rewrite Hf.
  split; [reflexivity |]. split; [destruct t; repeat split |].
  assert (Hg : forall tbl, get_rules (set_rules (tick db) t tbl) t = tbl)
    by (destruct t; reflexivity).
  rewrite Hg.
  assert (Ht' : get_rules (tick db) t = get_rules db t) by (destruct t; reflexivity).
  rewrite Ht'. clear Ht' Hg.
  induction (get_rules db t) as [| r tbl IH]; [constructor | cbn [map]; constructor; [| exact IH]].
  unfold update_row. destruct (Z.eqb (rule_id r) rid) eqn:Er.
  - apply Z.eqb_eq in Er. split; [intros H; contradiction |]. intros _.
    destruct (fold_apply_kwarg_fixed (k0 :: ks) r) as (A & B & C & D & F & G & I).
    simpl. repeat split; assumption.
  - apply Z.eqb_neq in Er. split; [reflexivity | intros H; contradiction].
Qed.

Lemma subseq_nil_r {A} (l : list A) : subseq l [] -> l = [].
Proof. intros H. inversion H. reflexivity. Qed.

Lemma subseq_nil_l {A} (l : list A) : subseq [] l.
Proof. induction l; constructor; assumption. Qed.

Lemma subseq_cons_app {A} (x : A) (a b l : list A) :
  subseq a [x] -> subseq b l -> subseq (a ++ b) (x :: l).
Proof.
  intros Ha Hb. inversion Ha as [| y l1 l2 H1 | y l1 l2 H1]; subst.
  - apply subseq_nil_r in H1. subst. simpl. constructor; assumption.
  - apply subseq_nil_r in H1. subst. simpl. constructor; assumption.
Qed.

Lemma add_color_rule_adds (fault : nat -> bool) :
  adds_at_most_one fault ColorRules (add_color_rule fault).
Proof.
  intros s i n c db. unfold add_color_rule, rethrow_as, bind, storage.
  destruct (fault (ticks db)) eqn:F.
  - exists []. cbn. rewrite app_nil_r. split; [reflexivity |].
    split; [apply same_except_tick, same_except_refl |].
    split; [apply subseq_nil_l |]. split; [constructor |]. intros; discriminate.
  - cbn. destruct (fault (S (ticks db))); cbn;
      (eexists [_]; split; [reflexivity |];
       split; [repeat split |];
       split; [repeat constructor |];
       split; [repeat constructor | intros _; reflexivity]).
Qed.

Lemma add_size_rule_adds (fault : nat -> bool) :
  adds_at_most_one fault SizeRules (add_size_rule fault).
Proof.
  intros s i n c db. unfold add_size_rule, rethrow_as, bind, storage.
  destruct (fault (ticks db)) eqn:F.
  - exists []. cbn. rewrite app_nil_r. split; [reflexivity |].
    split; [apply same_except_tick, same_except_refl |].
    split; [apply subseq_nil_l |]. split; [constructor |]. intros; discriminate.
  - cbn. destruct (fault (S (ticks db))); cbn;
      (eexists [_]; split; [reflexivity |];
       split; [repeat split |];
       split; [repeat constructor |];
       split; [repeat constructor | intros _; reflexivity]).
Qed.

Lemma add_samples_effect (fault : nat -> bool) (t : RuleTable)
    (add : ustr -> Z -> ustr -> Q -> M Z) :
  adds_at_most_one fault t add ->
  forall l db,
    fst (add_samples add l db) = Ok tt /\
    exists added,
      get_rules (snd (add_samples add l db)) t = get_rules db t ++ added /\
      same_except t db (snd (add_samples add l db)) /\
      subseq (map rule_key added) l /\
      Forall (fun r => is_active r = true) added /\
      ((forall k, fault k = false) -> map rule_key added = l).
Proof.
  intros Hadd l. induction l as [| [[[s i] n] c] l IH]; intros db.
  - split; [reflexivity |]. exists []. rewrite app_nil_r.
    split; [reflexivity |]. split; [apply same_except_refl |].
    split; [constructor |]. split; [constructor | reflexivity].
  - destruct (Hadd s i n c db) as (a1 & H1 & S1 & Q1 & A1 & N1).
    cbn [add_samples]. unfold bind, try_skip.
    destruct (add s i n c db) as [r1 db1] eqn:E. cbn [snd] in H1, S1.
    destruct (IH db1) as [Hr (a2 & H2 & S2 & Q2 & A2 & N2)].
    split; [exact Hr |].
    exists (a1 ++ a2). split; [rewrite H2, H1, app_assoc; reflexivity |].
    split; [eapply same_except_trans; eassumption |].
    split; [rewrite map_app; apply subseq_cons_app; assumption |].
    split; [apply Forall_app; split; assumption |].
    intros Hnf. rewrite map_app, (N1 (Hnf _)), (N2 Hnf). reflexivity.
Qed.

(** [initialize_sample_rules] never raises, whatever storage calls fail:
    each failed [add_color_rule] / [add_size_rule] is logged and skipped.
    The rule tables grow only at their end, by active rules that are the
    sample rules in list order with some left out (a rule whose
    [last_insert_rowid] query failed is kept); the history and target tables
    are untouched.  With no storage failure all 8 color and 6 size sample
    rules are appended, in order. *)
Theorem initialize_sample_rules_never_raises (fault : nat -> bool) (db : DB) :
  let (res, db') := initialize_sample_rules fault db in
  res = Ok tt /\
  exists added_c added_s,
    color_rules_tbl db' = color_rules_tbl db ++ added_c /\
    size_rules_tbl db' = size_rules_tbl db ++ added_s /\
    subseq (map rule_key added_c) color_samples /\
    subseq (map rule_key added_s) size_samples /\
    Forall (fun r => is_active r = true) (added_c ++ added_s) /\
    history_tbl db' = history_tbl db /\
    tm9030color db' = tm9030color db /\ tm9035size db' = tm9035size db /\
    ((forall k, fault k = false) ->
     map rule_key added_c = color_samples /\ map rule_key added_s = size_samples).
Proof.
  unfold initialize_sample_rules, rethrow_as, bind.
  destruct (add_samples_effect fault ColorRules _ (add_color_rule_adds fault)
              color_samples db) as [Hc (ac & Hc1 & (Sc1 & Sc2 & Sc3 & Sc4) & Qc & Ac & Nc)].
  destruct (add_samples (add_color_rule fault) color_samples db) as [rc dbc] eqn:Ec.
  cbn [fst snd] in *. subst rc.
  destruct (add_samples_effect fault SizeRules _ (add_size_rule_adds fault)
              size_samples dbc) as [Hs (as_ & Hs1 & (Ss1 & Ss2 & Ss3 & Ss4) & Qs & As & Ns)].
  destruct (add_samples (add_size_rule fault) size_samples dbc) as [rs dbs] eqn:Es.
  cbn [fst snd] in *. subst rs.
  split; [reflexivity |].
  exists ac, as_. cbn [get_rules other_table] in *.
  split; [rewrite Ss1; exact Hc1 |].
  split; [rewrite Hs1, Sc1; reflexivity |].
  split; [exact Qc |]. split; [exact Qs |].
  split; [apply Forall_app; split; assumption |].
  split; [congruence |]. split; [congruence |]. split; [congruence |].
  intros Hnf. split; [apply Nc | apply Ns]; exact Hnf.
Qed.

(** * The upsert writers *)

Lemma build_size_values_keys (now : nat -> Z * Z) (ps : list Product) :
  forall i, map v_product_id (build_size_values now i ps) = map p_product_id ps.
Proof.
  induction ps as [|p ps IH]; intros i; simpl; [reflexivity|]; rewrite IH; reflexivity.
Qed.

(** A row whose key is in no VALUES row comes through the statement unchanged. *)
Lemma upsert_all_keeps_row (vs : list ValueRow) :
  forall t r, In r t -> ~ In (t_product_id r) (map v_product_id vs) ->
  In r (upsert_all t vs).
Proof.
  induction vs as [|v vs IH]; intros t r Hr Hn; simpl; [exact Hr|].
  apply IH; [| intro H; apply Hn; right; exact H].
  unfold upsert_one; destruct (has_key t (v_product_id v)).
  - apply in_map_iff; exists r; split; [|exact Hr].
    unfold set_on_conflict; rewrite ustr_eqb_neq; [reflexivity|].
    intro E; apply Hn; left; symmetry; exact E.
  - apply in_or_app; left; exact Hr.
Qed.

Lemma filter_in_keys (f : Product -> bool) (ps : list Product) (p : Product) :
  In p ps -> f p = true -> In (p_product_id p) (map p_product_id (filter f ps)).
Proof. intros H1 H2; apply in_map, filter_In; auto. Qed.

Lemma isna_false (x : option Z) : x <> None -> negb (isna x) = true.
Proof. destruct x; [reflexivity | intros H; exfalso; apply H; reflexivity]. Qed.

Lemma zlen_filter_split {A} (f : A -> bool) (l : list A) :
  zlen (filter f l) + zlen (filter (fun x => negb (f x)) l) = zlen l.
Proof.
  unfold zlen; induction l as [|x l IH]; [reflexivity|]; cbn [filter negb List.length].
  destruct (f x); cbn [negb List.length]; lia.
Qed.

Lemma zlen_filter_le {A} (f : A -> bool) (l : list A) :
  0 <= zlen (filter f l) <= zlen l.
Proof.
  unfold zlen; split; [lia|]; apply Nat2Z.inj_le; apply filter_length_le.
Qed.

(** The color writer: it never touches another table; a row whose
    [product_id] is not among the products with a [color_id] is kept as it
    was; the key set stays duplicate free.  On success [success] is true,
    [inserted_count] is the number of products with a [color_id],
    [inserted_count + skipped_count] is the number of products, and every
    product with a [color_id] has a row.  It raises only [DatabaseError],
    only when some product has a [color_id], and then the table is left as
    it was (the transaction is rolled back). *)
Theorem insert_tm9030color_outcome (fault : nat -> bool) (ps : list Product) (db : DB) :
  let (res, db') := insert_tm9030color fault ps db in
  color_rules_tbl db' = color_rules_tbl db /\
  size_rules_tbl db' = size_rules_tbl db /\
  history_tbl db' = history_tbl db /\
  tm9035size db' = tm9035size db /\
  (forall r, In r (tm9030color db) ->
     ~ In (t_product_id r) (map p_product_id (color_products ps)) ->
     In r (tm9030color db')) /\
  (NoDup (map t_product_id (tm9030color db)) ->
     NoDup (map t_product_id (tm9030color db'))) /\
  match res with
  | Ok ir =>
      ins_success ir = true /\
      inserted_count ir = zlen (color_products ps) /\
      inserted_count ir + skipped_count ir = zlen ps /\
      (forall p, In p ps -> p_color_id p <> None ->
         In (p_product_id p) (map t_product_id (tm9030color db')))
  | Err e => e = DatabaseError /\ tm9030color db' = tm9030color db /\
             color_products ps <> []
  end.
Proof.
  unfold insert_tm9030color, rethrow_as, storage, ret.
  destruct (color_products ps) as [|c cs] eqn:E.
  - cbn. repeat split; auto; try (unfold zlen; lia).
    intros p Hp Hc. exfalso.
    pose proof (filter_in_keys (fun p => negb (isna (p_color_id p))) ps p Hp (isna_false _ Hc)) as H.
    unfold color_products in E; rewrite E in H; destruct H.
  - destruct (fault (ticks db)); cbv beta iota zeta.
    + cbn. repeat split; auto; discriminate.
    + cbn [set_tm9030color tick color_rules_tbl size_rules_tbl history_tbl tm9030color
           tm9035size ins_success inserted_count skipped_count].
      unfold write_colors; rewrite E.
      split; [reflexivity|]; split; [reflexivity|]; split; [reflexivity|].
      split; [reflexivity|]; split; [|split; [|split; [reflexivity|split; [unfold zlen; lia|split; [unfold zlen; lia|]]]]].
      * intros r Hr Hn; apply upsert_all_keeps_row; [exact Hr|].
        rewrite build_color_values_keys; exact Hn.
      * intros H; apply upsert_all_nodup, H.
      * intros p Hp Hc.
        pose proof (filter_in_keys (fun p => negb (isna (p_color_id p))) ps p Hp (isna_false _ Hc)) as H.
        fold (color_products ps) in H; rewrite E, <- (build_color_values_keys (call_now (tick db)) _ 0) in H.
        apply in_map_iff in H as [v [Hv Hin]]; rewrite <- Hv; apply upsert_all_has_keys, Hin.
Qed.

(** The size writer behaves in the same way on [tm9035size] and [size_id]. *)
Theorem insert_tm9035size_outcome (fault : nat -> bool) (ps : list Product) (db : DB) :
  let (res, db') := insert_tm9035size fault ps db in
  color_rules_tbl db' = color_rules_tbl db /\
  size_rules_tbl db' = size_rules_tbl db /\
  history_tbl db' = history_tbl db /\
  tm9030color db' = tm9030color db /\
  (forall r, In r (tm9035size db) ->
     ~ In (t_product_id r) (map p_product_id (size_products ps)) ->
     In r (tm9035size db')) /\
  (NoDup (map t_product_id (tm9035size db)) ->
     NoDup (map t_product_id (tm9035size db'))) /\
  match res with
  | Ok ir =>
      ins_success ir = true /\
      inserted_count ir = zlen (size_products ps) /\
      inserted_count ir + skipped_count ir = zlen ps /\
      (forall p, In p ps -> p_size_id p <> None ->
         In (p_product_id p) (map t_product_id (tm9035size db')))
  | Err e => e = DatabaseError /\ tm9035size db' = tm9035size db /\
             size_products ps <> []
  end.
Proof.
  unfold insert_tm9035size, rethrow_as, storage, ret.
  destruct (size_products ps) as [|c cs] eqn:E.
  - cbn. repeat split; auto; try (unfold zlen; lia).
    intros p Hp Hc. exfalso.
    pose proof (filter_in_keys (fun p => negb (isna (p_size_id p))) ps p Hp (isna_false _ Hc)) as H.
    unfold size_products in E; rewrite E in H; destruct H.
  - destruct (fault (ticks db)); cbv beta iota zeta.
    + cbn. repeat split; auto; discriminate.
    + cbn [set_tm9035size tick color_rules_tbl size_rules_tbl history_tbl tm9030color
           tm9035size ins_success inserted_count skipped_count].
      unfold write_sizes; rewrite E.
      split; [reflexivity|]; split; [reflexivity|]; split; [reflexivity|].
      split; [reflexivity|]; split; [|split; [|split; [reflexivity|split; [unfold zlen; lia|split; [unfold zlen; lia|]]]]].
      * intros r Hr Hn; apply upsert_all_keeps_row; [exact Hr|].
        rewrite build_size_values_keys; exact Hn.
      * intros H; apply upsert_all_nodup, H.
      * intros p Hp Hc.
        pose proof (filter_in_keys (fun p => negb (isna (p_size_id p))) ps p Hp (isna_false _ Hc)) as H.
        fold (size_products ps) in H; rewrite E, <- (build_size_values_keys (call_now (tick db)) _ 0) in H.
        apply in_map_iff in H as [v [Hv Hin]]; rewrite <- Hv; apply upsert_all_has_keys, Hin.
Qed.

(** * Pre-insert checks *)

Lemma zlen_filter_mono {A} (f g : A -> bool) (l : list A) :
  (forall x, f x = true -> g x = true) -> zlen (filter f l) <= zlen (filter g l).
Proof.
  intros H; unfold zlen; induction l as [|x l IH]; [reflexivity|]; cbn [filter].
  destruct (f x) eqn:F; [rewrite (H x F)|]; destruct (g x); cbn [List.length]; lia.
Qed.

Lemma zlen_filter_ext {A} (f g : A -> bool) (l : list A) :
  (forall x, f x = g x) -> zlen (filter f l) = zlen (filter g l).
Proof. intros H; rewrite (filter_ext f g H); reflexivity. Qed.

Lemma zlen_cons_pos {A} (x : A) (l : list A) : exists n, zlen (x :: l) = Z.pos n.
Proof. unfold zlen; cbn [List.length]; exists (Pos.of_succ_nat (List.length l)); reflexivity. Qed.

Lemma percentage_bounds (k : Z) (ps : list Product) :
  ps <> [] -> 0 <= k <= zlen ps -> (0 <= percentage k ps <= 100)%Q.
Proof.
  intros Hne Hk; destruct ps as [|p ps']; [congruence|].
  destruct (zlen_cons_pos p ps') as [n Hn]; unfold percentage; rewrite Hn in *.
  unfold Qle, Qdiv, Qmult, Qinv, inject_Z; cbn [Qnum Qden]; split; nia.
Qed.

(** [get_insert_summary]: [ready_for_insert + needs_attention] is
    [total_products]; [ready_for_insert] is at most [color_ready] and at most
    [size_ready], which are at most [total_products]; for an empty list both
    percentages are 0, otherwise they lie in [0, 100]. *)
Theorem get_insert_summary_consistent (ps : list Product) :
  let s := get_insert_summary ps in
  sum_total_products s = zlen ps /\
  sum_ready_for_insert s + sum_needs_attention s = sum_total_products s /\
  0 <= sum_color_ready s <= sum_total_products s /\
  0 <= sum_size_ready s <= sum_total_products s /\
  sum_ready_for_insert s <= sum_color_ready s /\
  sum_ready_for_insert s <= sum_size_ready s /\
  (ps = [] -> sum_color_percentage s = 0%Q /\ sum_size_percentage s = 0%Q) /\
  (ps <> [] -> (0 <= sum_color_percentage s <= 100)%Q /\
               (0 <= sum_size_percentage s <= 100)%Q).
Proof.
  cbn [get_insert_summary sum_total_products sum_ready_for_insert sum_needs_attention
       sum_color_ready sum_size_ready sum_color_percentage sum_size_percentage].
  split; [reflexivity|].
  split.
  { rewrite (zlen_filter_ext (fun p => isna (p_color_id p) || isna (p_size_id p))
              (fun p => negb (negb (isna (p_color_id p)) && negb (isna (p_size_id p))))).
    - apply zlen_filter_split.
    - intros p; destruct (isna (p_color_id p)), (isna (p_size_id p)); reflexivity. }
  split; [apply zlen_filter_le|]. split; [apply zlen_filter_le|].
  split; [apply zlen_filter_mono; intros p Hp; apply andb_true_iff in Hp; apply Hp|].
  split; [apply zlen_filter_mono; intros p Hp; apply andb_true_iff in Hp; apply Hp|].
  split.
  - intros ->; split; reflexivity.
  - intros Hne; split; apply percentage_bounds; auto; apply zlen_filter_le.
Qed.

Lemma product_errors_nil (p : ProductV) : product_errors p = [] <-> product_ok p = true.
Proof.
  unfold product_errors, product_ok.
  destruct (is_blank (pv_product_id p)), (py_truthy (pv_product_name p)),
    (bad_id_type (pv_color_id p)), (bad_id_type (pv_size_id p)); cbn; split; congruence.
Qed.

Lemma is_blank_false (s : ustr) : is_blank s = false <-> s <> [].
Proof. destruct s; cbn; split; congruence. Qed.

Lemma fold_validate_step (ps : list ProductV) :
  forall acc,
  let r := fold_left validate_step ps acc in
  iv_is_valid r = iv_is_valid acc /\
  iv_total_count r = iv_total_count acc /\
  iv_valid_count r = iv_valid_count acc + zlen (filter product_ok ps) /\
  iv_invalid_count r = iv_invalid_count acc +
    zlen (filter (fun p => negb (product_ok p)) ps) /\
  iv_errors r = iv_errors acc ++ flat_map (fun p => with_pid p (product_errors p)) ps /\
  iv_warnings r = iv_warnings acc ++ flat_map (fun p => with_pid p (product_warnings p)) ps.
Proof.
  induction ps as [|p ps IH]; intros acc r; subst r.
  - cbn; unfold zlen; cbn; rewrite !app_nil_r; repeat split; lia.
  - cbn [fold_left].
    destruct (IH (validate_step acc p)) as [H1 [H2 [H3 [H4 [H5 H6]]]]].
    rewrite H1, H2, H3, H4, H5, H6; clear H1 H2 H3 H4 H5 H6.
    unfold validate_step; cbn [iv_is_valid iv_total_count iv_valid_count iv_invalid_count
                              iv_errors iv_warnings flat_map filter].
    rewrite <- !app_assoc.
    destruct (product_ok p) eqn:Ho.
    + apply product_errors_nil in Ho; rewrite Ho; cbn [negb].
      repeat split; try reflexivity; unfold zlen; cbn [List.length]; lia.
    + destruct (product_errors p) as [|m ms] eqn:He.
      * apply product_errors_nil in He; congruence.
      * cbn [negb]; repeat split; try reflexivity; unfold zlen; cbn [List.length]; lia.
Qed.

Lemma length_with_pid (p : ProductV) (msgs : list ustr) :
  zlen (with_pid p msgs) = zlen msgs.
Proof. unfold zlen, with_pid; rewrite length_map; reflexivity. Qed.

Lemma zlen_app {A} (a b : list A) : zlen (a ++ b) = zlen a + zlen b.
Proof. unfold zlen; rewrite length_app; lia. Qed.

Lemma all_ok_iff (ps : list ProductV) :
  Forall (fun p => pv_product_id p <> [] /\ py_truthy (pv_product_name p) = true /\
                   bad_id_type (pv_color_id p) = false /\
                   bad_id_type (pv_size_id p) = false) ps <->
  zlen (filter (fun p => negb (product_ok p)) ps) = 0.
Proof.
  unfold zlen; induction ps as [|p ps IH]; cbn [filter]; [split; [reflexivity | constructor]|].
  rewrite Forall_cons_iff, IH; unfold product_ok.
  destruct (pv_product_id p), (py_truthy (pv_product_name p)),
    (bad_id_type (pv_color_id p)), (bad_id_type (pv_size_id p));
    cbn [is_blank negb andb List.length]; intuition (try congruence; try lia).
Qed.

Lemma zlen_flat_map_errors (ps : list ProductV) :
  zlen (flat_map (fun p => with_pid p (product_errors p)) ps) =
  zlen (filter (fun p => is_blank (pv_product_id p)) ps) +
  zlen (filter (fun p => negb (py_truthy (pv_product_name p))) ps) +
  zlen (filter (fun p => bad_id_type (pv_color_id p)) ps) +
  zlen (filter (fun p => bad_id_type (pv_size_id p)) ps).
Proof.
  induction ps as [|p ps IH]; [reflexivity|]; cbn [flat_map filter].
  rewrite zlen_app, length_with_pid, IH; unfold product_errors, zlen.
  destruct (is_blank (pv_product_id p)), (py_truthy (pv_product_name p)),
    (bad_id_type (pv_color_id p)), (bad_id_type (pv_size_id p));
    cbn [negb app List.length]; lia.
Qed.

Lemma zlen_flat_map_warnings (ps : list ProductV) :
  zlen (flat_map (fun p => with_pid p (product_warnings p)) ps) =
  zlen (filter (fun p => py_is_none (pv_color_id p)) ps) +
  zlen (filter (fun p => py_is_none (pv_size_id p)) ps).
Proof.
  induction ps as [|p ps IH]; [reflexivity|]; cbn [flat_map filter].
  rewrite zlen_app, length_with_pid, IH; unfold product_warnings, zlen.
  destruct (py_is_none (pv_color_id p)), (py_is_none (pv_size_id p));
    cbn [app List.length]; lia.
Qed.

Lemma flat_map_with_pid (f : ProductV -> list ustr) (ps : list ProductV) :
  Forall (fun m => exists p m', In p ps /\ m = pv_product_id p ++ [58; 32] ++ m')
         (flat_map (fun p => with_pid p (f p)) ps).
Proof.
  apply Forall_forall; intros m Hm; apply in_flat_map in Hm as [p [Hp Hm]].
  unfold with_pid in Hm; apply in_map_iff in Hm as [m' [Hm _]].
  exists p, m'; split; [exact Hp | symmetry; exact Hm].
Qed.

(** [validate_insert_data]: [valid_count + invalid_count] is [total_count],
    the number of products; [valid_count] counts the products that no check
    flags; [is_valid] holds exactly when every product has a non-empty id, a
    truthy name, and ids that are [None] or Python ints (a float id, [NaN]
    included, is an error however it came about); there is one error line
    per empty id, per falsy name and per id of another type, and one warning
    line per id that is [None] (a [NaN] id gives no warning), each line
    prefixed by the product's id. *)
Theorem validate_insert_data_counts (ps : list ProductV) :
  let r := validate_insert_data ps in
  iv_total_count r = zlen ps /\
  iv_valid_count r + iv_invalid_count r = iv_total_count r /\
  iv_valid_count r = zlen (filter product_ok ps) /\
  (iv_is_valid r = true <->
     Forall (fun p => pv_product_id p <> [] /\ py_truthy (pv_product_name p) = true /\
                      bad_id_type (pv_color_id p) = false /\
                      bad_id_type (pv_size_id p) = false) ps) /\
  zlen (iv_errors r) = zlen (filter (fun p => is_blank (pv_product_id p)) ps) +
                       zlen (filter (fun p => negb (py_truthy (pv_product_name p))) ps) +
                       zlen (filter (fun p => bad_id_type (pv_color_id p)) ps) +
                       zlen (filter (fun p => bad_id_type (pv_size_id p)) ps) /\
  zlen (iv_warnings r) = zlen (filter (fun p => py_is_none (pv_color_id p)) ps) +
                         zlen (filter (fun p => py_is_none (pv_size_id p)) ps) /\
  Forall (fun m => exists p m', In p ps /\ m = pv_product_id p ++ [58; 32] ++ m')
         (iv_errors r ++ iv_warnings r).
Proof.
  unfold validate_insert_data.
  destruct (fold_validate_step ps (mkValidation true (zlen ps) 0 0 [] []))
    as [H1 [H2 [H3 [H4 [H5 H6]]]]].
  cbn [iv_is_valid iv_total_count iv_valid_count iv_invalid_count iv_errors iv_warnings]
    in H1, H2, H3, H4, H5, H6.
  set (r := fold_left validate_step ps (mkValidation true (zlen ps) 0 0 [] [])) in *.
  assert (Hsum : iv_valid_count r + iv_invalid_count r = zlen ps).
  { rewrite H3, H4, <- (zlen_filter_split product_ok ps); lia. }
  assert (Hmsg : Forall (fun m => exists p m', In p ps /\ m = pv_product_id p ++ [58; 32] ++ m')
                        (iv_errors r ++ iv_warnings r)).
  { rewrite H5, H6; cbn [app]; apply Forall_app; split; apply flat_map_with_pid. }
  destruct (0 <? iv_invalid_count r) eqn:Hlt;
    cbn [iv_is_valid iv_total_count iv_valid_count iv_invalid_count iv_errors iv_warnings];
    rewrite H2; (split; [reflexivity|]); (split; [exact Hsum|]); (split; [exact H3|]);
    (split; [|split; [rewrite H5; apply zlen_flat_map_errors|
                      split; [rewrite H6; apply zlen_flat_map_warnings | exact Hmsg]]]);
    rewrite all_ok_iff, <- (Z.add_0_l (zlen _)), <- H4; try rewrite H1.
  - apply Z.ltb_lt in Hlt; split; [discriminate | lia].
  - apply Z.ltb_ge in Hlt; pose proof (zlen_filter_le (fun p => negb (product_ok p)) ps).
    split; [lia | reflexivity].
Qed.

(** * Dict round trips *)

Lemma as_opt_str_of (s : option ustr) : as_opt_str (of_opt_str s) = Some s.
Proof. destruct s; reflexivity. Qed.

Lemma as_opt_int_of (z : option Z) : as_opt_int (of_opt_int z) = Some z.
Proof. destruct z; reflexivity. Qed.

(** [ConversionResult.from_dict(r.to_dict())] gives back [r]; an empty dict
    gives the dataclass defaults ([product_id] "", [confidence] 0.0,
    [conversion_type] "auto", [status] "pending", the rest [None]). *)
Theorem result_dict_round_trip (r : ConversionResult) :
  result_from_dict (result_to_dict r) = Some r /\
  result_from_dict [] =
    Some (mkResult [] None None None None None None None 0 s_auto s_pending None).
Proof.
  split; [|reflexivity].
  destruct r as [pid ocn osn ocv cci ccn csi csn c ct st em].
  cbv -[as_opt_str of_opt_str as_opt_int of_opt_int].
  rewrite !as_opt_str_of, !as_opt_int_of; reflexivity.
Qed.

(** [ConversionRule.from_dict(r.to_dict())] gives back [r] whatever the
    clock shows, given that [datetime.fromisoformat] inverts
    [datetime.isoformat] (whose text is never empty); from an empty dict
    [created_at] is the first clock reading of [__post_init__] and
    [updated_at] the second (two calls of [datetime.now()]), and the other
    fields take the dataclass defaults. *)
Theorem rule_dict_round_trip (isoformat : Z -> ustr) (fromisoformat : ustr -> option Z)
    (Hiso : forall t, fromisoformat (isoformat t) = Some t)
    (Hne : forall t, isoformat t <> []) (now : nat -> Z) (r : RuleObj) :
  rule_from_dict fromisoformat now (rule_to_dict isoformat r) = Some r /\
  rule_from_dict fromisoformat now [] = Some (mkRuleObj None [] 0 [] 1 true (now O) (now 1%nat)).
Proof.
  split; [|reflexivity].
  destruct r as [i sn ti tn c a ca ua].
  cbv -[as_opt_int of_opt_int is_blank].
  rewrite !as_opt_int_of, !(proj2 (is_blank_false _) (Hne _)), !Hiso; reflexivity.
Qed.

(** [ConversionBatch.from_dict(b.to_dict())] gives back [b] under the same
    condition on the datetime text: an unset [started_at] or [completed_at]
    stays unset; from an empty dict [status] is "pending", [started_at] and
    [completed_at] are unset, [created_at] is the first clock reading and
    [updated_at] the second. *)
Theorem batch_dict_round_trip (isoformat : Z -> ustr) (fromisoformat : ustr -> option Z)
    (Hiso : forall t, fromisoformat (isoformat t) = Some t)
    (Hne : forall t, isoformat t <> []) (now : nat -> Z) (b : ConvBatch) :
  batch_from_dict fromisoformat now (batch_to_dict isoformat b) = Some b /\
  batch_from_dict fromisoformat now [] =
    Some (mkConvBatch None [] 0 0 0 0 s_pending None None (now O) (now 1%nat)).
Proof.
  split; [|reflexivity].
  destruct b as [i bn tr pr sr fr st sa co ca ua].
  destruct sa, co;
    cbv -[as_opt_int of_opt_int is_blank];
    rewrite !as_opt_int_of, ?(proj2 (is_blank_false _) (Hne _)), !Hiso; reflexivity.
Qed.

(** * The validators *)

Lemma lstrip_nil_iff (l : ustr) :
  lstrip l = [] <-> Forall (fun c => is_py_space c = true) l.
Proof.
  induction l as [|c l IH]; cbn [lstrip]; [split; auto|].
  rewrite Forall_cons_iff; destruct (is_py_space c) eqn:E.
  - rewrite IH; tauto.
  - split; [discriminate | intros [H _]; discriminate].
Qed.

Lemma Forall_lstrip (l : ustr) :
  Forall (fun c => is_py_space c = true) (lstrip l) <->
  Forall (fun c => is_py_space c = true) l.
Proof.
  induction l as [|c l IH]; cbn [lstrip]; [tauto|].
  destruct (is_py_space c) eqn:E; [|tauto].
  rewrite IH, Forall_cons_iff; tauto.
Qed.

Lemma Forall_rev_iff {A} (P : A -> Prop) (l : list A) : Forall P (rev l) <-> Forall P l.
Proof.
  split; intros H; [rewrite <- (rev_involutive l)|]; apply Forall_rev; exact H.
Qed.

(** [s.strip()] is empty exactly when [s] is all whitespace. *)
Lemma strip_nil_iff (s : ustr) :
  strip s = [] <-> Forall (fun c => is_py_space c = true) s.
Proof.
  unfold strip; split; intros H.
  - apply (f_equal (@rev Z)) in H; rewrite rev_involutive in H; cbn in H.
    apply (proj1 (lstrip_nil_iff _)), (proj1 (Forall_rev_iff _ _)),
      (proj1 (Forall_lstrip _)) in H; exact H.
  - apply (proj2 (Forall_lstrip _)), (proj2 (Forall_rev_iff _ _)),
      (proj2 (lstrip_nil_iff _)) in H; rewrite H; reflexivity.
Qed.

Lemma strip_nil_nil (s : ustr) : strip s <> [] -> s <> [].
Proof. intros H ->; apply H; reflexivity. Qed.

Lemma then_check_pass (c1 c2 : Check) :
  then_check c1 c2 = Pass <-> c1 = Pass /\ c2 = Pass.
Proof. destruct c1; cbn; split; intuition discriminate. Qed.

Lemma is_blank_true (s : ustr) : is_blank s = true <-> s = [].
Proof. destruct s; cbn; split; congruence. Qed.

Lemma zlen_pos (s : ustr) : s <> [] -> 1 <= zlen s.
Proof. destruct s as [|c s]; [congruence|]; unfold zlen; cbn [List.length]; lia. Qed.

(** A name validator: [validate_required] then [validate_string_length]
    with bounds 1 and 100. *)
Lemma name_check_spec (fld : ustr) (v : PyVal) :
  then_check (validate_required v fld) (validate_string_length v fld 100 1) = Pass <->
  exists s, v = VStr s /\ strip s <> [] /\ zlen s <= 100.
Proof.
  destruct v as [| b | z | f | s]; cbn;
    try (split; [discriminate | intros [s [Hs _]]; discriminate]).
  destruct (is_blank (strip s)) eqn:E; cbn.
  - apply is_blank_true in E; split; [discriminate | intros [s' [Hs [Hn _]]]; congruence].
  - apply is_blank_false in E; pose proof (zlen_pos s (strip_nil_nil s E)).
    replace (zlen s <? 1) with false by (symmetry; apply Z.ltb_ge; lia).
    destruct (100 <? zlen s) eqn:L; split.
    + discriminate.
    + intros [s' [Hs [_ Hl]]]; injection Hs as <-; apply Z.ltb_lt in L; lia.
    + intros _; exists s; repeat split; [exact E | apply Z.ltb_ge, L].
    + reflexivity.
Qed.

Lemma name_check_blank (fld : ustr) (s : ustr) :
  strip s = [] ->
  then_check (validate_required (VStr s) fld) (validate_string_length (VStr s) fld 100 1) =
  Raise (fld ++ msg_is_required).
Proof. intros H; cbn; rewrite H; reflexivity. Qed.

Lemma name_check_long (fld : ustr) (s : ustr) :
  strip s <> [] -> 100 < zlen s ->
  then_check (validate_required (VStr s) fld) (validate_string_length (VStr s) fld 100 1) =
  Raise (fld ++ [12399] ++ u "100" ++ msg_chars_at_most).
Proof.
  intros H L; cbn; rewrite (proj2 (is_blank_false _) H); cbn.
  pose proof (zlen_pos s (strip_nil_nil s H)).
  replace (zlen s <? 1) with false by (symmetry; apply Z.ltb_ge; lia).
  replace (100 <? zlen s) with true by (symmetry; apply Z.ltb_lt; lia).
  reflexivity.
Qed.

Lemma name_check_not_str (fld : ustr) (v : PyVal) :
  v <> VNone -> (forall s, v <> VStr s) ->
  then_check (validate_required v fld) (validate_string_length v fld 100 1) =
  Raise (fld ++ msg_must_be_str).
Proof.
  intros H1 H2; destruct v as [| b | z | f | s]; try reflexivity;
    [congruence | exfalso; apply (H2 s); reflexivity].
Qed.

(** [validate_color_name] and [validate_size_name] accept exactly the strings
    that are not all whitespace and have at most 100 code points (the
    surrounding whitespace counts; the 1-character minimum can never fire
    after [validate_required]); [None] and an all-whitespace string give
    "...は必須項目です", a longer one "...は100文字以下である必要があります",
    and any other non-string value (an int, a float, a bool)
    "...は文字列である必要があります". *)
Theorem validate_name_spec (v : PyVal) :
  (validate_color_name v = Pass <-> exists s, v = VStr s /\ strip s <> [] /\ zlen s <= 100) /\
  (validate_size_name v = Pass <-> exists s, v = VStr s /\ strip s <> [] /\ zlen s <= 100) /\
  validate_color_name VNone = Raise (fld_color_name ++ msg_is_required) /\
  validate_size_name VNone = Raise (fld_size_name ++ msg_is_required) /\
  (forall s, strip s = [] ->
     validate_color_name (VStr s) = Raise (fld_color_name ++ msg_is_required) /\
     validate_size_name (VStr s) = Raise (fld_size_name ++ msg_is_required)) /\
  (forall s, strip s <> [] -> 100 < zlen s ->
     validate_color_name (VStr s) = Raise (fld_color_name ++ [12399] ++ u "100" ++ msg_chars_at_most) /\
     validate_size_name (VStr s) = Raise (fld_size_name ++ [12399] ++ u "100" ++ msg_chars_at_most)) /\
  (v <> VNone -> (forall s, v <> VStr s) ->
     validate_color_name v = Raise (fld_color_name ++ msg_must_be_str) /\
     validate_size_name v = Raise (fld_size_name ++ msg_must_be_str)).
Proof.
  unfold validate_color_name, validate_size_name.
  split; [apply name_check_spec|]. split; [apply name_check_spec|].
  split; [reflexivity|]. split; [reflexivity|].
  split; [intros s H; split; apply name_check_blank, H|].
  split; [intros s H L; split; apply name_check_long; assumption|].
  intros H1 H2; split; apply name_check_not_str; assumption.
Qed.

Lemma pid_char_not_space (c : Z) : is_pid_char c = true -> is_py_space c = false.
Proof.
  unfold is_pid_char, is_py_space; intros H.
  repeat rewrite Bool.orb_true_iff, ?Bool.andb_true_iff, ?Z.leb_le, ?Z.eqb_eq in H.
  apply Bool.not_true_iff_false; intros H2.
  repeat rewrite Bool.orb_true_iff, ?Bool.andb_true_iff, ?Z.leb_le, ?Z.eqb_eq in H2.
  lia.
Qed.

Lemma pid_tail_iff (t : ustr) :
  pid_tail t = true <->
  exists w, Forall (fun c => is_pid_char c = true) w /\ (t = w \/ t = w ++ [10]).
Proof.
  induction t as [|c t IH]; cbn [pid_tail].
  - split; [intros _; exists []; auto | reflexivity].
  - rewrite Bool.orb_true_iff, !Bool.andb_true_iff, Z.eqb_eq, is_blank_true, IH.
    split.
    + intros [[-> ->] | [Hc [w [Hw Ht]]]].
      * exists []; split; [constructor | right; reflexivity].
      * exists (c :: w); split; [constructor; assumption|].
        destruct Ht as [-> | ->]; [left | right]; reflexivity.
    + intros [[|c' w] [Hw [Ht | Ht]]].
      * discriminate.
      * injection Ht as -> ->; left; auto.
      * injection Ht as -> ->; inversion Hw; subst; right; split; [assumption|].
        exists w; auto.
      * injection Ht as -> ->; inversion Hw; subst; right; split; [assumption|].
        exists w; auto.
Qed.

(** What [re.match(r'^[a-zA-Z0-9\-_]+$', s)] accepts. *)
Lemma pid_pattern_match_iff (s : ustr) :
  pid_pattern_match s = true <->
  exists w, w <> [] /\ Forall (fun c => is_pid_char c = true) w /\ (s = w \/ s = w ++ [10]).
Proof.
  destruct s as [|c s]; cbn [pid_pattern_match].
  - split; [discriminate|]. intros [w [Hne [_ [H | H]]]]; [congruence|].
    destruct w; [congruence | discriminate].
  - rewrite Bool.andb_true_iff, pid_tail_iff; split.
    + intros [Hc [w [Hw Ht]]]; exists (c :: w); split; [discriminate|].
      split; [constructor; assumption|].
      destruct Ht as [-> | ->]; [left | right]; reflexivity.
    + intros [[|c' w] [Hne [Hw Ht]]]; [congruence|].
      inversion Hw; subst.
      destruct Ht as [Ht | Ht]; injection Ht as -> ->; split; try assumption;
        exists w; auto.
Qed.

(** [validate_product_id] accepts exactly the strings of at most 50 code
    points made of one or more ASCII letters, digits, [-] and [_], optionally
    followed by a single final newline (which [$] lets through); an
    all-whitespace id gives "商品IDは必須項目です" and a non-blank id longer than
    50 code points "商品IDは50文字以下である必要があります". *)
Theorem validate_product_id_spec (s : ustr) :
  (validate_product_id s = Pass <->
     zlen s <= 50 /\
     exists w, w <> [] /\ Forall (fun c => is_pid_char c = true) w /\
               (s = w \/ s = w ++ [10])) /\
  (strip s = [] -> validate_product_id s = Raise (fld_product_id ++ msg_is_required)) /\
  (strip s <> [] -> 50 < zlen s ->
     validate_product_id s = Raise (fld_product_id ++ [12399] ++ u "50" ++ msg_chars_at_most)).
Proof.
  unfold validate_product_id; split; [|split].
  - rewrite !then_check_pass; cbn [validate_required validate_string_length].
    rewrite <- pid_pattern_match_iff; split.
    + intros [H1 [H2 H3]].
      destruct (pid_pattern_match s); [|discriminate].
      destruct (zlen s <? 1); [discriminate|].
      destruct (50 <? zlen s) eqn:L; [discriminate|]. apply Z.ltb_ge in L; auto.
    + intros [L Hm]; rewrite Hm.
      assert (Hs : strip s <> []).
      { apply pid_pattern_match_iff in Hm as [w [Hne [Hw Ht]]].
        destruct w as [|c w]; [congruence|]; inversion Hw; subst.
        intros Hn; apply strip_nil_iff in Hn.
        destruct Ht as [-> | ->]; inversion Hn; subst;
          rewrite (pid_char_not_space c) in *; congruence. }
      rewrite (proj2 (is_blank_false _) Hs).
      pose proof (zlen_pos s (strip_nil_nil s Hs)).
      replace (zlen s <? 1) with false by (symmetry; apply Z.ltb_ge; lia).
      replace (50 <? zlen s) with false by (symmetry; apply Z.ltb_ge; lia).
      auto.
  - intros H; cbn; rewrite H; reflexivity.
  - intros H L; cbn; rewrite (proj2 (is_blank_false _) H); cbn.
    pose proof (zlen_pos s (strip_nil_nil s H)).
    replace (zlen s <? 1) with false by (symmetry; apply Z.ltb_ge; lia).
    replace (50 <? zlen s) with true by (symmetry; apply Z.ltb_lt; lia).
    reflexivity.
Qed.

Lemma Qle_bool_false (x y : Q) : Qle_bool x y = false <-> (y < x)%Q.
Proof.
  split; intros H.
  - apply Qnot_le_lt; intros H'; apply Qle_bool_iff in H'; congruence.
  - apply Bool.not_true_iff_false; intros H'; apply Qle_bool_iff in H'.
    apply (Qlt_not_le _ _ H H').
Qed.

Lemma range_check_pass (f : PyFloat) :
  then_check (if flt_lt f 0 then Raise (fld_confidence ++ [12399] ++ u "0.0" ++ msg_at_least)
              else Pass)
             (if flt_gt f 1 then Raise (fld_confidence ++ [12399] ++ u "1.0" ++ msg_at_most)
              else Pass) = Pass <->
  flt_lt f 0 = false /\ flt_gt f 1 = false.
Proof.
  destruct (flt_lt f 0), (flt_gt f 1); cbn; split; intuition discriminate.
Qed.

Lemma flt_in_unit (q : Q) :
  flt_lt (PFin q) 0 = false /\ flt_gt (PFin q) 1 = false <-> (0 <= q <= 1)%Q.
Proof.
  cbn [flt_lt flt_gt]; rewrite !Bool.negb_false_iff, !Qle_bool_iff; reflexivity.
Qed.

(** [validate_confidence] accepts a bool (it is an int), an int in [0, 1],
    a finite float in [0, 1], and NaN (both comparisons are false for it);
    it rejects [None], every string (even "0.5") with "信頼度は数値である必要があります",
    a number below 0 or [-inf] with "信頼度は0.0以上である必要があります" and a number
    above 1 or [inf] with "信頼度は1.0以下である必要があります". *)
Theorem validate_confidence_spec (v : PyVal) :
  (validate_confidence v = Pass <->
     match v with
     | VBool _ => True
     | VInt z => 0 <= z <= 1
     | VFloat (PFin q) => (0 <= q <= 1)%Q
     | VFloat PNaN => True
     | VFloat (PInf _) | VNone | VStr _ => False
     end) /\
  validate_confidence VNone = Raise (fld_confidence ++ msg_must_be_number) /\
  (forall s, validate_confidence (VStr s) = Raise (fld_confidence ++ msg_must_be_number)) /\
  (forall q, (q < 0)%Q ->
     validate_confidence (VFloat (PFin q)) =
       Raise (fld_confidence ++ [12399] ++ u "0.0" ++ msg_at_least)) /\
  (forall z, z < 0 ->
     validate_confidence (VInt z) = Raise (fld_confidence ++ [12399] ++ u "0.0" ++ msg_at_least)) /\
  validate_confidence (VFloat (PInf true)) =
    Raise (fld_confidence ++ [12399] ++ u "0.0" ++ msg_at_least) /\
  (forall q, (1 < q)%Q ->
     validate_confidence (VFloat (PFin q)) =
       Raise (fld_confidence ++ [12399] ++ u "1.0" ++ msg_at_most)) /\
  (forall z, 1 < z ->
     validate_confidence (VInt z) = Raise (fld_confidence ++ [12399] ++ u "1.0" ++ msg_at_most)) /\
  validate_confidence (VFloat (PInf false)) =
    Raise (fld_confidence ++ [12399] ++ u "1.0" ++ msg_at_most).
Proof.
  unfold validate_confidence, validate_float_range.
  split; [|split; [reflexivity|split; [reflexivity|]]].
  - destruct v as [| b | z | [q | | neg] | s]; cbn [py_number].
    + split; [discriminate | contradiction].
    + destruct b; cbn; split; auto.
    + rewrite range_check_pass, flt_in_unit; unfold Qle, inject_Z; cbn [Qnum Qden].
      split; intros; lia.
    + rewrite range_check_pass, flt_in_unit; reflexivity.
    + cbn; split; auto.
    + destruct neg; cbn; split; try discriminate; contradiction.
    + split; [discriminate | contradiction].
  - split; [intros q Hq; cbn [py_number flt_lt];
            rewrite (proj2 (Qle_bool_false _ _) Hq); reflexivity|].
    split; [intros z Hz; cbn [py_number flt_lt];
            rewrite (proj2 (Qle_bool_false _ _)); [reflexivity|];
            unfold Qlt, inject_Z; cbn [Qnum Qden]; lia|].
    split; [reflexivity|].
    split; [intros q Hq; cbn [py_number flt_lt flt_gt];
            replace (Qle_bool 0 q) with true
              by (symmetry; apply Qle_bool_iff, Qlt_le_weak, (Qlt_trans _ 1); [reflexivity | exact Hq]);
            rewrite (proj2 (Qle_bool_false _ _) Hq); reflexivity|].
    split; [intros z Hz; cbn [py_number flt_lt flt_gt];
            replace (Qle_bool 0 (inject_Z z)) with true
              by (symmetry; apply Qle_bool_iff; unfold Qle, inject_Z; cbn [Qnum Qden]; lia);
            rewrite (proj2 (Qle_bool_false _ _)); [reflexivity|];
            unfold Qlt, inject_Z; cbn [Qnum Qden]; lia|].
    reflexivity.
Qed.


Lemma validate_conversion_rule_raises (parse_float : ustr -> option PyFloat) (d : PyDict)
    (e : PyExc) :
  validate_conversion_rule parse_float d = PRaise e <->
  e = OverflowError /\
  exists z, dict_get d (u "confidence") = Some (VInt z) /\ float_overflow_bound <= Z.abs z.
Proof.
  unfold validate_conversion_rule.
  destruct (dict_get d (u "confidence")) as [v|].
  2: { split; [discriminate | intros [_ [z [H _]]]; discriminate]. }
  destruct v as [| b | z | f | s]; cbn [py_float];
    try (split; [discriminate | intros [_ [z' [H _]]]; discriminate]).
  - destruct (float_overflow_bound <=? Z.abs z) eqn:B; split.
    + intros H; injection H as <-; split; [reflexivity|].
      exists z; split; [reflexivity | apply Z.leb_le, B].
    + intros [-> _]; reflexivity.
    + discriminate.
    + intros [_ [z' [H L]]]; injection H as <-; apply Z.leb_gt in B; lia.
  - destruct (parse_float s); (split; [discriminate | intros [_ [z' [H _]]]; discriminate]).
Qed.

Lemma missing_fields_in (prefix : ustr) (d : PyDict) (fields : list ustr) (f : ustr) :
  In f fields -> missing_or_falsy d f = true ->
  In (prefix ++ f ++ msg_is_missing) (missing_fields prefix d fields).
Proof.
  intros H1 H2; unfold missing_fields.
  apply (in_map (fun g => prefix ++ g ++ msg_is_missing)), filter_In; auto.
Qed.

(** [validate_conversion_rule] raises only [OverflowError], and exactly when
    [confidence] is an int too large for a float; otherwise it returns one
    "変換ルールの{field}が不足しています" per required field ([source_name],
    [target_id], [target_name]) in that order that is missing or falsy (so a
    [target_id] of 0 is reported), followed by at most one confidence
    message, none when there is no [confidence] key.  A NaN confidence gives
    no message; [None] and a string [float()] refuses give
    "信頼度は数値である必要があります". *)
Theorem validate_conversion_rule_outcome (parse_float : ustr -> option PyFloat) (d : PyDict) :
  (forall e, validate_conversion_rule parse_float d = PRaise e <->
     e = OverflowError /\
     exists z, dict_get d (u "confidence") = Some (VInt z) /\ float_overflow_bound <= Z.abs z) /\
  (forall errs, validate_conversion_rule parse_float d = POk errs ->
     exists extra,
       errs = missing_fields msg_rule_prefix d rule_required_fields ++ extra /\
       (extra = [] \/ extra = [msg_confidence_range] \/ extra = [msg_confidence_number]) /\
       (dict_get d (u "confidence") = None -> extra = [])) /\
  (forall f errs, In f rule_required_fields -> missing_or_falsy d f = true ->
     validate_conversion_rule parse_float d = POk errs ->
     In (msg_rule_prefix ++ f ++ msg_is_missing) errs) /\
  (dict_get d (u "confidence") = Some (VFloat PNaN) ->
     validate_conversion_rule parse_float d =
       POk (missing_fields msg_rule_prefix d rule_required_fields)) /\
  (dict_get d (u "confidence") = Some VNone ->
     validate_conversion_rule parse_float d =
       POk (missing_fields msg_rule_prefix d rule_required_fields ++ [msg_confidence_number])) /\
  (forall s, dict_get d (u "confidence") = Some (VStr s) -> parse_float s = None ->
     validate_conversion_rule parse_float d =
       POk (missing_fields msg_rule_prefix d rule_required_fields ++ [msg_confidence_number])).
Proof.
  assert (Hok : forall errs, validate_conversion_rule parse_float d = POk errs ->
     exists extra,
       errs = missing_fields msg_rule_prefix d rule_required_fields ++ extra /\
       (extra = [] \/ extra = [msg_confidence_range] \/ extra = [msg_confidence_number]) /\
       (dict_get d (u "confidence") = None -> extra = [])).
  { intros errs; unfold validate_conversion_rule.
    destruct (dict_get d (u "confidence")) as [v|] eqn:E.
    - destruct (py_float parse_float v) as [f | [| |]]; intros H; try (injection H as <-).
      + exists (if flt_lt f 0 || flt_gt f 1 then [msg_confidence_range] else []).
        split; [reflexivity|]; split; [destruct (flt_lt f 0 || flt_gt f 1); auto|].
        discriminate.
      + exists [msg_confidence_number]; split; [reflexivity|]; split; [auto | discriminate].
      + exists [msg_confidence_number]; split; [reflexivity|]; split; [auto | discriminate].
      + discriminate.
    - intros H; injection H as <-; exists []; rewrite app_nil_r; auto. }
  split; [apply validate_conversion_rule_raises|].
  split; [exact Hok|].
  split.
  { intros f errs Hf Hm H; destruct (Hok errs H) as [extra [-> _]].
    apply in_or_app; left; apply missing_fields_in; assumption. }
  unfold validate_conversion_rule.
  split; [intros E; rewrite E; cbn; rewrite app_nil_r; reflexivity|].
  split; [intros E; rewrite E; reflexivity|].
  intros s E P; rewrite E; cbn [py_float]; rewrite P; reflexivity.
Qed.

Lemma missing_fields_nil (prefix : ustr) (d : PyDict) (fields : list ustr) :
  missing_fields prefix d fields = [] <->
  Forall (fun f => missing_or_falsy d f = false) fields.
Proof.
  unfold missing_fields; induction fields as [|f fs IH]; cbn [filter]; [split; auto|].
  rewrite Forall_cons_iff; destruct (missing_or_falsy d f); cbn [map].
  - split; [discriminate | intros [H _]; discriminate].
  - rewrite IH; tauto.
Qed.

Lemma validate_mariadb_raises (parse_int : ustr -> option Z) (config : PyDict) (e : PyExc) :
  validate_database_config parse_int config (u "mariadb") = PRaise e <->
  (e = TypeError /\ dict_get config (u "port") = Some VNone) \/
  (e = OverflowError /\ exists neg, dict_get config (u "port") = Some (VFloat (PInf neg))).
Proof.
  unfold validate_database_config; cbn [ustr_eqb]; simpl ustr_eqb; cbv iota beta.
  destruct (dict_get config (u "port")) as [v|].
  2: { split; [discriminate | intros [[_ H] | [_ [neg H]]]; discriminate]. }
  destruct v as [| b | z | [q | | neg] | s]; cbn [py_int].
  - split; [intros H; injection H as <-; left; auto | intros [[-> _] | [_ [n H]]]; [reflexivity | discriminate]].
  - split; [discriminate | intros [[_ H] | [_ [n H]]]; discriminate].
  - split; [discriminate | intros [[_ H] | [_ [n H]]]; discriminate].
  - split; [discriminate | intros [[_ H] | [_ [n H]]]; discriminate].
  - split; [discriminate | intros [[_ H] | [_ [n H]]]; discriminate].
  - split; [intros H; injection H as <-; right; eauto | intros [[_ H] | [-> _]]; [discriminate | reflexivity]].
  - destruct (parse_int s); (split; [discriminate | intros [[_ H] | [_ [n H]]]; discriminate]).
Qed.

(** [validate_database_config] returns [[]] for a [db_type] other than
    "sqlserver" and "mariadb".  For "sqlserver" it never raises and returns
    one "SQL Server設定の{field}が不足しています" per missing or falsy field among
    [driver], [server], [database]: none exactly when all three are set.  For
    "mariadb" it raises [TypeError] when [port] is [None] and
    [OverflowError] when it is an infinite float, and nothing else escapes;
    an int port outside 1..65535 adds "ポート番号は1-65535の範囲である必要があります"
    after the missing-field messages, so a port of 0 is reported both as
    missing and as out of range; a NaN port gives "ポート番号は数値である必要があります". *)
Theorem validate_database_config_outcome (parse_int : ustr -> option Z) (config : PyDict)
    (db_type : ustr) :
  (db_type <> u "sqlserver" -> db_type <> u "mariadb" ->
     validate_database_config parse_int config db_type = POk []) /\
  (db_type = u "sqlserver" ->
     validate_database_config parse_int config db_type =
       POk (missing_fields msg_sqlserver_prefix config sqlserver_fields) /\
     (missing_fields msg_sqlserver_prefix config sqlserver_fields = [] <->
      Forall (fun f => missing_or_falsy config f = false) sqlserver_fields)) /\
  (db_type = u "mariadb" -> forall e,
     validate_database_config parse_int config db_type = PRaise e <->
     (e = TypeError /\ dict_get config (u "port") = Some VNone) \/
     (e = OverflowError /\ exists neg, dict_get config (u "port") = Some (VFloat (PInf neg)))) /\
  (db_type = u "mariadb" -> forall z, dict_get config (u "port") = Some (VInt z) ->
     validate_database_config parse_int config db_type =
       POk (missing_fields msg_mariadb_prefix config mariadb_fields ++
            (if (z <? 1) || (65535 <? z) then [msg_port_range] else []))) /\
  (db_type = u "mariadb" -> dict_get config (u "port") = Some (VInt 0) ->
     exists errs, validate_database_config parse_int config db_type = POk errs /\
       In (msg_mariadb_prefix ++ u "port" ++ msg_is_missing) errs /\ In msg_port_range errs) /\
  (db_type = u "mariadb" -> dict_get config (u "port") = Some (VFloat PNaN) ->
     validate_database_config parse_int config db_type =
       POk (missing_fields msg_mariadb_prefix config mariadb_fields ++ [msg_port_number])).
Proof.
  split.
  { intros H1 H2; unfold validate_database_config.
    rewrite (ustr_eqb_neq _ _ H1), (ustr_eqb_neq _ _ H2); reflexivity. }
  split.
  { intros ->; split; [reflexivity | apply missing_fields_nil]. }
  split.
  { intros -> e; apply validate_mariadb_raises. }
  split.
  { intros -> z E; unfold validate_database_config; simpl ustr_eqb; cbv iota beta.
    rewrite E; reflexivity. }
  split.
  { intros -> E; eexists; split.
    - unfold validate_database_config; simpl ustr_eqb; cbv iota beta; rewrite E; reflexivity.
    - split; apply in_or_app; [left | right; left; reflexivity].
      apply missing_fields_in; [cbn; tauto|].
      unfold missing_or_falsy; rewrite E; reflexivity. }
  intros -> E; unfold validate_database_config; simpl ustr_eqb; cbv iota beta.
  rewrite E; reflexivity.
Qed.

(** [ConversionHistory.from_dict(h.to_dict())] gives back [h] under the same
    condition on the datetime text; from an empty dict [product_id],
    [original_value], [conversion_type] and [status] are "", [confidence] is
    1.0, the ids and [error_message] are [None], [created_at] is the first
    clock reading and [updated_at] the second. *)
Theorem history_dict_round_trip (isoformat : Z -> ustr) (fromisoformat : ustr -> option Z)
    (Hiso : forall t, fromisoformat (isoformat t) = Some t)
    (Hne : forall t, isoformat t <> []) (now : nat -> Z) (h : HistoryObj) :
  history_from_dict fromisoformat now (history_to_dict isoformat h) = Some h /\
  history_from_dict fromisoformat now [] =
    Some (mkHistoryObj None [] [] None None [] [] 1 None (now O) (now 1%nat)).
Proof.
  split; [|reflexivity].
  destruct h as [i pid ov cci csi ct st c em ca ua].
  cbv -[as_opt_int of_opt_int as_opt_str of_opt_str is_blank].
  rewrite !as_opt_int_of, !as_opt_str_of, !(proj2 (is_blank_false _) (Hne _)), !Hiso;
    reflexivity.
Qed.

(** * Witnesses of the rule-maintenance and round-trip properties *)

Lemma delete_rule_soft_deletes_witness :
  let (res, db') := delete_rule no_fault (fun _ => ret tt) 1 (u "color") sample_db in
  res = Ok tt /\
  map rule_key (get_rules db' ColorRules) = map rule_key (get_rules sample_db ColorRules).
Proof.
  pose proof (delete_rule_soft_deletes no_fault (fun _ => ret tt) 1 (u "color") ColorRules
                sample_db eq_refl eq_refl eq_refl) as H.
  destruct (delete_rule no_fault (fun _ => ret tt) 1 (u "color") sample_db) as [res db'].
  destruct H as [H1 [_ [_ [H4 _]]]]; split; assumption.
Defined.

Lemma rule_admin_unknown_type_witness :
  delete_rule no_fault (fun _ => ret tt) 1 (u "shoe") sample_db =
    (Err DatabaseError, tick sample_db) /\
  update_rule no_fault (fun _ => ret tt) 1 (u "shoe") [KwConfidence (1 # 2)] sample_db =
    (Err DatabaseError, tick sample_db).
Proof.
  destruct (rule_admin_unknown_type no_fault (fun _ => ret tt) 1 (u "shoe")
              [KwConfidence (1 # 2)] sample_db eq_refl eq_refl) as [H1 H2].
  split; [exact H1 | apply H2; reflexivity].
Defined.

Lemma update_rule_no_fields_witness :
  update_rule no_fault (fun _ => ret tt) 1 (u "color") [KwOther (u "note")] sample_db =
    (Err DatabaseError, sample_db).
Proof.
  apply (update_rule_no_fields no_fault (fun _ => ret tt) 1 (u "color")
           [KwOther (u "note")] sample_db); reflexivity.
Defined.

Lemma update_rule_target_never_written_witness :
  update_rule no_fault (fun _ => ret tt) 1 (u "color") [KwTargetId 5; KwConfidence 1]
    sample_db = (Err DatabaseError, tick sample_db).
Proof.
  apply (update_rule_target_never_written no_fault (fun _ => ret tt) 1 (u "color")
           [KwTargetId 5; KwConfidence 1] sample_db eq_refl).
  left; exists 5; left; reflexivity.
Defined.

Lemma update_rule_sets_fields_witness :
  let (res, db') :=
    update_rule no_fault (fun _ => ret tt) 1 (u "color") [KwConfidence (1 # 2)] sample_db in
  res = Ok tt /\ same_except ColorRules sample_db db'.
Proof.
  pose proof (update_rule_sets_fields no_fault (fun _ => ret tt) 1 (u "color") ColorRules
                [KwConfidence (1 # 2)] sample_db eq_refl eq_refl eq_refl eq_refl eq_refl) as H.
  cbv zeta in H.
  destruct (update_rule no_fault (fun _ => ret tt) 1 (u "color") [KwConfidence (1 # 2)]
              sample_db) as [res db'].
  destruct H as [H1 [H2 _]]; split; assumption.
Defined.

Lemma rule_dict_round_trip_witness :
  rule_from_dict fromiso_list (fun _ => 7)
    (rule_to_dict iso_list (mkRuleObj None (u "Red") 1 (u "Red") (9 # 10) true 3 4)) =
    Some (mkRuleObj None (u "Red") 1 (u "Red") (9 # 10) true 3 4).
Proof.
  apply (rule_dict_round_trip iso_list fromiso_list (fun t => eq_refl)
           (fun t => ltac:(discriminate)) (fun _ => 7)
           (mkRuleObj None (u "Red") 1 (u "Red") (9 # 10) true 3 4)).
Defined.

Lemma batch_dict_round_trip_witness :
  batch_from_dict fromiso_list (fun _ => 7)
    (batch_to_dict iso_list (mkConvBatch (Some 2) (u "b") 3 3 2 1 (u "completed")
                               (Some 5) None 5 6)) =
    Some (mkConvBatch (Some 2) (u "b") 3 3 2 1 (u "completed") (Some 5) None 5 6).
Proof.
  apply (batch_dict_round_trip iso_list fromiso_list (fun t => eq_refl)
           (fun t => ltac:(discriminate)) (fun _ => 7)
           (mkConvBatch (Some 2) (u "b") 3 3 2 1 (u "completed") (Some 5) None 5 6)).
Defined.

Lemma history_dict_round_trip_witness :
  history_from_dict fromiso_list (fun _ => 7)
    (history_to_dict iso_list (mkHistoryObj (Some 1) (u "P001") (u "red") (Some 1) None
                                 s_auto s_success 1 None 5 6)) =
    Some (mkHistoryObj (Some 1) (u "P001") (u "red") (Some 1) None s_auto s_success 1 None 5 6).
Proof.
  apply (history_dict_round_trip iso_list fromiso_list (fun t => eq_refl)
           (fun t => ltac:(discriminate)) (fun _ => 7)
           (mkHistoryObj (Some 1) (u "P001") (u "red") (Some 1) None s_auto s_success 1 None 5 6)).
Defined.
